(** * The HTTP streaming endpoint of the chat backend

    A shallow embedding of [chat-backend/api/routes/http_stream.py]:
    the endpoint [http_stream_chat] and the generator
    [stream_llm_response], with the server-sent events they emit, the
    calls they make to the message store and the records they log.

    Python values are modelled as follows.
    - A [str] is a [string]; every character stands for one code point,
      below 256 (the code only measures lengths, slices, splits on a
      newline and looks for four punctuation characters).
    - [None], a [str] and a [dict] with [str] keys are the three shapes of
      [pyval]; a dict keeps its items in insertion order.
    - An exception is represented by its text, [str(e)].
    - The generator runs in a monad that threads a [World]: the events
      yielded so far, the calls received by the message store and the
      log.  A raised exception keeps the world reached so far, as in
      Python, where the events already yielded have left the process.
    - Only exceptions that [except Exception] catches are modelled; a
      cancellation of the task or the closing of the generator by the
      framework is not. *)

From Stdlib Require Import String Ascii List Bool Arith PeanoNat Lia.
Import ListNotations.

Local Open Scope string_scope.
Local Open Scope list_scope.

Infix "+++" := String.append (at level 60, right associativity).

(** ** Characters and strings *)

Module Py.

(** The characters the source names. *)
Definition newline : ascii := "010"%char.
Definition space : ascii := " "%char.
Definition dquote : ascii := "034"%char.
Definition backslash : ascii := "092"%char.

Definition nl : string := String newline EmptyString.

(** [c in s] for a one-character [c]. *)
Fixpoint contains (c : ascii) (s : string) : bool :=
  match s with
  | EmptyString => false
  | String x r => if Ascii.eqb x c then true else contains c r
  end.

(** [s.split(sep)] for a one-character separator: never an empty list. *)
Fixpoint split (sep : ascii) (s : string) : list string :=
  match s with
  | EmptyString => [EmptyString]
  | String x r =>
      if Ascii.eqb x sep then EmptyString :: split sep r
      else match split sep r with
           | h :: t => String x h :: t
           | [] => [String x EmptyString]
           end
  end.

(** [s[:n]]. *)
Fixpoint slice_to (n : nat) (s : string) : string :=
  match n, s with
  | S k, String x r => String x (slice_to k r)
  | _, _ => EmptyString
  end.

(** [s.replace(a, b)] for one-character [a] and [b]. *)
Fixpoint replace (a b : ascii) (s : string) : string :=
  match s with
  | EmptyString => EmptyString
  | String x r => String (if Ascii.eqb x a then b else x) (replace a b r)
  end.

(** [''.join(l)]. *)
Definition join (l : list string) : string :=
  fold_right String.append EmptyString l.

(** ** Values *)

#[warnings="-register-all"]
Inductive pyval : Type :=
| PNone
| PStr (s : string)
| PDict (items : list (string * pyval)).

Definition dict : Type := list (string * pyval).

(** Truth value of an object: [None], [''] and [{}] are false. *)
Definition truthy (v : pyval) : bool :=
  match v with
  | PNone => false
  | PStr EmptyString => false
  | PStr _ => true
  | PDict [] => false
  | PDict _ => true
  end.

Definition str_truthy (s : string) : bool :=
  match s with EmptyString => false | _ => true end.

Definition dict_truthy (d : dict) : bool :=
  match d with [] => false | _ => true end.

(** [d.get(k, default)]. *)
Fixpoint get (d : dict) (k : string) (default : pyval) : pyval :=
  match d with
  | [] => default
  | (k', v) :: r => if String.eqb k' k then v else get r k default
  end.

(** [v is not None and v != ""]. *)
Definition not_none_nor_empty (v : pyval) : bool :=
  match v with
  | PNone => false
  | PStr EmptyString => false
  | _ => true
  end.

(** ** [json.dumps] with its default settings

    [ensure_ascii] is on and the separators are [", "] and [": "]. *)

Definition hex_digit (n : nat) : ascii :=
  match n with
  | 0 => "0" | 1 => "1" | 2 => "2" | 3 => "3" | 4 => "4" | 5 => "5"
  | 6 => "6" | 7 => "7" | 8 => "8" | 9 => "9" | 10 => "a" | 11 => "b"
  | 12 => "c" | 13 => "d" | 14 => "e" | _ => "f"
  end%char.

(** ["\u{0:04x}"] of a character of the model, a code point below 256.
    The escapes [json.dumps] writes for code points from 256 on (four
    significant digits, and a surrogate pair from 65536 on) are outside
    the model: nothing below is stated about the escaped form of a text
    that is not a constant of the program. *)
Definition unicode_escape (c : ascii) : string :=
  let n := nat_of_ascii c in
  String backslash
    (String "u" (String "0" (String "0"
      (String (hex_digit (n / 16)) (String (hex_digit (n mod 16)) EmptyString))))).

Definition escape_char (c : ascii) : string :=
  let n := nat_of_ascii c in
  if Ascii.eqb c backslash then String backslash (String backslash EmptyString)
  else if Ascii.eqb c dquote then String backslash (String dquote EmptyString)
  else if Nat.eqb n 8 then String backslash "b"
  else if Nat.eqb n 12 then String backslash "f"
  else if Nat.eqb n 10 then String backslash "n"
  else if Nat.eqb n 13 then String backslash "r"
  else if Nat.eqb n 9 then String backslash "t"
  else if Nat.ltb n 32 || Nat.ltb 126 n then unicode_escape c
  else String c EmptyString.

Fixpoint escape (s : string) : string :=
  match s with
  | EmptyString => EmptyString
  | String c r => escape_char c +++ escape r
  end.

Definition encode_basestring_ascii (s : string) : string :=
  String dquote (escape s +++ String dquote EmptyString).

Fixpoint json_dumps (v : pyval) : string :=
  match v with
  | PNone => "null"
  | PStr s => encode_basestring_ascii s
  | PDict items =>
      let members :=
        (fix members (l : dict) : string :=
           match l with
           | [] => EmptyString
           | (k, x) :: r =>
               encode_basestring_ascii k +++ ": " +++ json_dumps x +++
               match r with [] => EmptyString | _ => ", " +++ members r end
           end) in
      "{" +++ members items +++ "}"
  end.

End Py.

Import Py.

(** ** Exceptions, the world and the generator monad *)

(** An exception, by its text [str(e)]. *)
Definition exn : Type := string.

(** A call that returns an [A] or raises. *)
Definition exc (A : Type) : Type := (A + exn)%type.

Inductive level : Type := INFO | WARNING | EXCEPTION.

(** One call received by the message store:
    [update_message(message_id=..., **fields)]. *)
Record update_call : Type := mk_update_call {
  message_id : string;
  fields : dict
}.

Record World : Type := mkWorld {
  yielded : list pyval;            (* the event objects, in emission order *)
  store_calls : list update_call;  (* the calls to [update_message] *)
  log : list (level * string)      (* the records given to [logger] *)
}.

Definition empty_world : World := mkWorld [] [] [].

Definition M (A : Type) : Type := World -> exc A * World.

Definition ret {A} (a : A) : M A := fun w => (inl a, w).

Definition raise {A} (e : exn) : M A := fun w => (inr e, w).

Definition bind {A B} (m : M A) (k : A -> M B) : M B :=
  fun w =>
    match m w with
    | (inl a, w') => k a w'
    | (inr e, w') => (inr e, w')
    end.

(** [try: m  except Exception as e: h e]. *)
Definition try_except {A} (m : M A) (h : exn -> M A) : M A :=
  fun w =>
    match m w with
    | (inl a, w') => (inl a, w')
    | (inr e, w') => h e w'
    end.

Definition lift {A} (r : exc A) : M A :=
  match r with inl a => ret a | inr e => raise e end.

Notation "x <- m ;; k" := (bind m (fun x => k))
  (at level 61, m at next level, right associativity).
Notation "m ;;; k" := (bind m (fun _ => k))
  (at level 61, right associativity).

(** [yield f"data: {event}\n\n".encode('utf-8')], recorded by the event
    object that is serialised. *)
Definition yield_event (event : pyval) : M unit :=
  fun w => (inl tt, mkWorld (yielded w ++ [event]) (store_calls w) (log w)).

Definition logger (l : level) (msg : string) : M unit :=
  fun w => (inl tt, mkWorld (yielded w) (store_calls w) (log w ++ [(l, msg)])).

(** The bytes of one frame. *)
Definition sse_frame (event : pyval) : string :=
  "data: " +++ json_dumps event +++ nl +++ nl.

(** What the client receives. *)
Definition wire (w : World) : list string := map sse_frame (yielded w).

(** ** The event objects *)

Definition start_event : pyval :=
  PDict [("type", PStr "start"); ("data", PDict [])].

Definition chunk_event (buffer : string) : pyval :=
  PDict [("type", PStr "chunk"); ("data", PDict [("text", PStr buffer)])].

Definition summary_event (title : pyval) : pyval :=
  PDict [("type", PStr "summary"); ("data", PDict [("title", title)])].

Definition complete_event (full_response : string) : pyval :=
  PDict [("type", PStr "complete"); ("data", PDict [("text", PStr full_response)])].

Definition error_event (e : exn) : pyval :=
  PDict [("type", PStr "error"); ("data", PDict [("message", PStr e)])].

(** Readers of an event object. *)
Definition items_of (v : pyval) : dict :=
  match v with PDict d => d | _ => [] end.

Definition event_type (event : pyval) : pyval :=
  get (items_of event) "type" PNone.

Definition event_data (event : pyval) (field : string) : pyval :=
  get (items_of (get (items_of event) "data" PNone)) field PNone.

Definition is_type (t : string) (event : pyval) : bool :=
  match event_type event with
  | PStr s => String.eqb s t
  | _ => false
  end.

Definition text_of (event : pyval) : string :=
  match event_data event "text" with PStr s => s | _ => EmptyString end.

(** The texts of the [chunk] events of a run, in emission order. *)
Definition chunk_texts (events : list pyval) : list string :=
  map text_of (filter (is_type "chunk") events).

(** ** The collaborators

    [run_llm_stream] returns a lazy, finite sequence of fragments that is
    consumed once: it ends by exhaustion or by raising. *)

Inductive llm_stream : Type :=
| Exhausted
| Raises (e : exn)
| Fragment (chunk : string) (rest : llm_stream).

Fixpoint fragments (s : llm_stream) : list string :=
  match s with
  | Fragment chunk rest => chunk :: fragments rest
  | _ => []
  end.

Fixpoint outcome (s : llm_stream) : option exn :=
  match s with
  | Exhausted => None
  | Raises e => Some e
  | Fragment _ rest => outcome rest
  end.

Record Collaborators : Type := mkCollaborators {
  get_account : string -> exc pyval;                 (* an account or None *)
  get_chat : string -> exc pyval;                    (* a chat or None *)
  get_recent_messages : string -> exc (list dict);   (* as_dict=True *)
  build_prompt : string -> list dict -> list dict -> pyval -> exc string;
  run_llm_stream : string -> pyval -> llm_stream;
  update_message : string -> dict -> exc unit
}.

(** The call [update_message(message_id=id, **fields)]: the store receives
    it, then answers or raises. *)
Definition call_update_message (env : Collaborators) (id : string) (kw : dict)
  : M unit :=
  fun w =>
    (update_message env id kw,
     mkWorld (yielded w) (store_calls w ++ [mk_update_call id kw]) (log w)).

(** ** [stream_llm_response] *)

Definition max_buffer_size : nat := 5.

(** The flush test of the loop: the buffer holds [max_buffer_size]
    fragments, or the fragment just received has one of [. \n ? !]. *)
Definition flush_now (buffer_size : nat) (chunk : string) : bool :=
  Nat.leb max_buffer_size buffer_size
  || contains "." chunk || contains newline chunk
  || contains "?" chunk || contains "!" chunk.

(** The loop [async for chunk in run_llm_stream(...)], by recursion on the
    stream; it returns [full_response], the only variable read after it. *)
Fixpoint stream_chunks (s : llm_stream) (buffer : string) (buffer_size : nat)
    (full_response : string) (chunk_counter : nat) : M string :=
  match s with
  | Exhausted => ret full_response
  | Raises e => raise e
  | Fragment chunk rest =>
      let buffer := buffer +++ chunk in
      let full_response := full_response +++ chunk in
      let buffer_size := buffer_size + 1 in
      if flush_now buffer_size chunk then
        yield_event (chunk_event buffer) ;;;
        stream_chunks rest EmptyString 0 full_response (chunk_counter + 1)
      else
        stream_chunks rest buffer buffer_size full_response chunk_counter
  end.

(** [l[0]]. *)
Definition item0 (l : list string) : exc string :=
  match l with
  | x :: _ => inl x
  | [] => inr "list index out of range"
  end.

(** The body of the [try] that creates the summary: the value [title] has
    when the body ends, or the exception it raises. *)
Definition derive_title (full_response : string) : exc pyval :=
  if Nat.ltb 10 (String.length full_response) then
    match item0 (split newline full_response) with
    | inl line =>
        let title := slice_to 50 line in
        if Nat.ltb (String.length title) 10
        then inl (PStr (replace newline space (slice_to 50 full_response)))
        else inl (PStr title)
    | inr e => inr e
    end
  else inl PNone.

Section Generator.

(** The generator is written over the body of the summary [try], so that
    the handler around it can be exercised; the program runs it with
    [derive_title]. *)
Variable title_body : string -> exc pyval.
Variable env : Collaborators.

Definition create_summary (full_response : string) : M pyval :=
  try_except
    (lift (title_body full_response))
    (fun e =>
       logger EXCEPTION ("Error creating summary: " +++ e) ;;;
       ret PNone).

Definition update_original (original_message_id full_response : string)
    (title : pyval) : M unit :=
  if str_truthy original_message_id then
    let update_data := [("response", PStr full_response); ("title", title)] in
    let update_data_cleaned :=
      filter (fun kv => not_none_nor_empty (snd kv)) update_data in
    if dict_truthy update_data_cleaned then
      try_except
        (call_update_message env original_message_id update_data_cleaned ;;;
         logger INFO ("Updated message " +++ original_message_id +++
                      " with full response and title."))
        (fun e =>
           logger EXCEPTION ("Error updating message " +++
                             original_message_id +++ ": " +++ e))
    else ret tt
  else
    logger WARNING
      "original_message_id was not provided to stream_llm_response. Cannot update message.".

Definition generator (prompt account_id conversation_id
    original_message_id : string) (profile : pyval) : M unit :=
  try_except
    (yield_event start_event ;;;
     full_response <-
       stream_chunks (run_llm_stream env prompt profile) EmptyString 0
                     EmptyString 0 ;;
     title <- create_summary full_response ;;
     (if truthy title then yield_event (summary_event title) else ret tt) ;;;
     yield_event (complete_event full_response) ;;;
     update_original original_message_id full_response title)
    (fun e =>
       logger EXCEPTION ("Error in stream_llm_response: " +++ e) ;;;
       yield_event (error_event e)).

End Generator.

Definition stream_llm_response : Collaborators -> string -> string -> string ->
    string -> pyval -> M unit :=
  generator derive_title.

(** ** [http_stream_chat] *)

Record StreamRequest : Type := mkStreamRequest {
  message : string;
  account_id : string;
  conversation_id : string;
  original_message_id : string
}.

Inductive HttpResponse : Type :=
| Response (content : string) (status_code : nat) (media_type : string)
| StreamingResponse (content : M unit) (media_type : string).

(** [v.get(k, default)] on an object that may not be a dict. *)
Definition py_get (v : pyval) (k : string) (default : pyval) : exc pyval :=
  match v with
  | PDict d => inl (get d k default)
  | PStr _ => inr "'str' object has no attribute 'get'"
  | PNone => inr "'NoneType' object has no attribute 'get'"
  end.

Definition json_error (msg : string) (status : nat) : HttpResponse :=
  Response (json_dumps (PDict [("error", PStr msg)])) status "application/json".

Definition http_stream_chat (env : Collaborators) (request : StreamRequest)
  : M HttpResponse :=
  try_except
    (account <- lift (get_account env (account_id request)) ;;
     if negb (truthy account) then ret (json_error "Invalid account ID" 400)
     else
       chat <- lift (get_chat env (conversation_id request)) ;;
       if negb (truthy chat) then ret (json_error "Invalid chat ID" 400)
       else
         recent <- lift (get_recent_messages env (conversation_id request)) ;;
         system_prompt <- lift (py_get account "system_prompt" PNone) ;;
         prompt <- lift (build_prompt env (message request) recent []
                                      system_prompt) ;;
         profile <- lift (py_get chat "model_profile" (PStr "default")) ;;
         ret (StreamingResponse
                (stream_llm_response env prompt (account_id request)
                   (conversation_id request) (original_message_id request)
                   profile)
                "text/event-stream"))
    (fun e =>
       logger EXCEPTION ("Error in http_stream_chat: " +++ e) ;;;
       ret (json_error e 500)).

(** The framework serves a request: it calls the endpoint and, when the
    answer is a streaming response, iterates its body to the end. *)
Definition serve (env : Collaborators) (request : StreamRequest)
  : exc HttpResponse * World :=
  match http_stream_chat env request empty_world with
  | (inl (StreamingResponse body media), w) =>
      (inl (StreamingResponse body media), snd (body w))
  | other => other
  end.

(** The events a client of the request receives. *)
Definition events_of (env : Collaborators) (request : StreamRequest)
  : list pyval :=
  yielded (snd (serve env request)).

Definition is_streaming (r : exc HttpResponse) : bool :=
  match r with
  | inl (StreamingResponse _ _) => true
  | _ => false
  end.

(** A request passes the validation when its account and its chat are
    found. *)
Definition valid_request (env : Collaborators) (request : StreamRequest) : Prop :=
  is_streaming (fst (serve env request)) = true.

(** ** A concrete deployment, for examples *)

Module Demo.

(** The stream that yields the fragments of [l], then ends as [e] says. *)
Definition stream_of (l : list string) (e : option exn) : llm_stream :=
  fold_right Fragment
    (match e with Some x => Raises x | None => Exhausted end) l.

(** One account [acct] and one chat [chat]; the LLM answers every prompt
    with [s]; the store answers every update with [upd]. *)
Definition env (s : llm_stream) (upd : exc unit) : Collaborators :=
  mkCollaborators
    (fun id => inl (if String.eqb id "acct"
                    then PDict [("_id", PStr "acct")] else PNone))
    (fun id => inl (if String.eqb id "chat"
                    then PDict [("_id", PStr "chat")] else PNone))
    (fun _ => inl [])
    (fun message _ _ _ => inl message)
    (fun _ _ => s)
    (fun _ _ => upd).

Definition request : StreamRequest := mkStreamRequest "hi" "acct" "chat" "m1".

(** A summary body that fails. *)
Definition failing_title (_ : string) : exc pyval := inr "no title".

End Demo.

(** ** Observations of a run *)

(** The world a generator leaves when it is iterated from the start. *)
Definition run (g : M unit) : World := snd (g empty_world).

(** The value of [title] after the summary [try]: what the body returned,
    or [None] when the handler ran. *)
Definition title_of (title_body : string -> exc pyval) (full_response : string)
  : pyval :=
  match title_body full_response with
  | inl title => title
  | inr _ => PNone
  end.

Definition summary_events (title : pyval) : list pyval :=
  if truthy title then [summary_event title] else [].

Definition summary_log (title_body : string -> exc pyval)
    (full_response : string) : list (level * string) :=
  match title_body full_response with
  | inl _ => []
  | inr e => [(EXCEPTION, "Error creating summary: " +++ e)]
  end.

(** The [title] item of an update: left out for [None] and for [""]. *)
Definition title_field (title : pyval) : dict :=
  if not_none_nor_empty title then [("title", title)] else [].

Definition response_field (full_response : string) : dict :=
  if str_truthy full_response then [("response", PStr full_response)] else [].

Definition update_calls (id full_response : string) (title : pyval)
  : list update_call :=
  if str_truthy id then
    match response_field full_response ++ title_field title with
    | [] => []
    | kw => [mk_update_call id kw]
    end
  else [].

Definition update_log (env : Collaborators) (id full_response : string)
    (title : pyval) : list (level * string) :=
  if str_truthy id then
    match response_field full_response ++ title_field title with
    | [] => []
    | kw =>
        match update_message env id kw with
        | inl _ =>
            [(INFO, "Updated message " +++ id +++ " with full response and title.")]
        | inr e =>
            [(EXCEPTION, "Error updating message " +++ id +++ ": " +++ e)]
        end
    end
  else [(WARNING,
         "original_message_id was not provided to stream_llm_response. Cannot update message.")].

(** ** The order of the events

    The states of the streaming loop: before [start], while chunks flow,
    after the [summary], after the terminal event. *)

Inductive phase : Type := START | STREAMING | SUMMARIZING | TERMINAL.

Definition terminal (event : pyval) : bool :=
  is_type "complete" event || is_type "error" event.

Definition next_phase (p : phase) (event : pyval) : option phase :=
  match p with
  | START => if is_type "start" event then Some STREAMING else None
  | STREAMING =>
      if is_type "chunk" event then Some STREAMING
      else if is_type "summary" event then Some SUMMARIZING
      else if terminal event then Some TERMINAL
      else None
  | SUMMARIZING => if terminal event then Some TERMINAL else None
  | TERMINAL => None
  end.

Fixpoint phase_after (p : phase) (events : list pyval) : option phase :=
  match events with
  | [] => Some p
  | event :: rest =>
      match next_phase p event with
      | Some q => phase_after q rest
      | None => None
      end
  end.

(** One [start], then [chunk] events, then at most one [summary], then one
    terminal event and nothing after it. *)
Definition well_ordered (events : list pyval) : bool :=
  match phase_after START events with
  | Some TERMINAL => true
  | _ => false
  end.

(** ** The title, in the words of the specification *)

(** The first line of a text: what stands before its first newline. *)
Fixpoint first_line (s : string) : string :=
  match s with
  | EmptyString => EmptyString
  | String c r => if Ascii.eqb c newline then EmptyString
                  else String c (first_line r)
  end.

(** No title for a response of at most 10 characters; otherwise the first
    line cut to 50 characters, unless that is shorter than 10 characters:
    then the first 50 characters of the response, newlines made spaces. *)
Definition spec_title (full_response : string) : option string :=
  if Nat.leb (String.length full_response) 10 then None
  else
    let candidate := slice_to 50 (first_line full_response) in
    if Nat.ltb (String.length candidate) 10
    then Some (replace newline space (slice_to 50 full_response))
    else Some candidate.

Definition title_value (t : option string) : pyval :=
  match t with Some s => PStr s | None => PNone end.

(** ** The title, on the strings of the Standard Library

    The words of the specification once more, with none of the functions
    of the embedding: [substring] cuts, a [map] over the characters
    replaces, and the first line is described, not computed. *)

Definition truncate (n : nat) (s : string) : string := substring 0 n s.

Definition newlines_to_spaces (s : string) : string :=
  string_of_list_ascii
    (map (fun c => if Ascii.eqb c newline then space else c)
         (list_ascii_of_string s)).

(** [line] has no newline, and it is the whole text or what stands before
    a newline of the text. *)
Definition is_first_line (line full : string) : Prop :=
  ~ In newline (list_ascii_of_string line) /\
  (full = line \/ exists rest, full = line +++ String newline rest).

Definition expected_title (full_response : string) (title : option string)
  : Prop :=
  (String.length full_response <= 10 /\ title = None) \/
  (10 < String.length full_response /\
   exists line,
     is_first_line line full_response /\
     ((10 <= String.length (truncate 50 line) /\
       title = Some (truncate 50 line)) \/
      (String.length (truncate 50 line) < 10 /\
       title = Some (newlines_to_spaces (truncate 50 full_response))))).

(** The titles of the [summary] events of a run, read from the events. *)
Definition summary_titles (events : list pyval) : list pyval :=
  map (fun event => event_data event "title")
      (filter (is_type "summary") events).

(** ** Two statements the code does not satisfy *)

(** An exception of a run is one a handler logged: each [except] of the
    generator starts with [logger.exception]. *)
Definition exception_raised (w : World) : Prop :=
  exists msg, In (EXCEPTION, msg) (log w).

(** Every run in which an exception is raised ends with an [error] event
    that carries the text of an exception. *)
Definition every_exception_ends_in_error : Prop :=
  forall env prompt account conversation id profile,
    let w := run (stream_llm_response env prompt account conversation id profile) in
    exception_raised w ->
    exists before e, yielded w = before ++ [error_event e].

(** Every run that completes with a message id makes one update, with the
    full response. *)
Definition every_completed_run_updates : Prop :=
  forall env prompt account conversation id profile,
    let s := run_llm_stream env prompt profile in
    let w := run (stream_llm_response env prompt account conversation id profile) in
    id <> EmptyString ->
    outcome s = None ->
    exists kw,
      store_calls w = [mk_update_call id kw] /\
      get kw "response" PNone = PStr (join (fragments s)).

(** A JSON string literal without characters to escape. *)
Definition quoted (s : string) : string :=
  String dquote (s +++ String dquote EmptyString).

(** ** The groups of fragments the loop flushes *)

(** The fragment has one of the four characters that force a flush. *)
Definition punctuated (chunk : string) : bool :=
  contains "." chunk || contains newline chunk
  || contains "?" chunk || contains "!" chunk.

(** What the buffer may hold between two fragments: fewer than
    [max_buffer_size] fragments, none of them punctuated. *)
Definition pending_ok (pending : list string) : Prop :=
  length pending < max_buffer_size /\
  Forall (fun chunk => punctuated chunk = false) pending.

(** The fragments of one [chunk] event: unpunctuated fragments and a last
    one, which is punctuated or is the fragment number [max_buffer_size]. *)
Definition flush_group (g : list string) : Prop :=
  exists init last,
    g = init ++ [last] /\
    Forall (fun chunk => punctuated chunk = false) init /\
    length g <= max_buffer_size /\
    (length g = max_buffer_size \/ punctuated last = true).

(** * Properties *)

(** ** Strings *)

Lemma append_nil_r (s : string) : s +++ EmptyString = s.
Proof. induction s as [|c s IH]; simpl; [reflexivity | now rewrite IH]. Qed.

Lemma append_assoc (a b c : string) : (a +++ b) +++ c = a +++ (b +++ c).
Proof. induction a as [|x a IH]; simpl; [reflexivity | now rewrite IH]. Qed.

Lemma join_app (l1 l2 : list string) : join (l1 ++ l2) = join l1 +++ join l2.
Proof.
  unfold join. induction l1 as [|x l1 IH]; simpl; [reflexivity|].
  now rewrite IH, append_assoc.
Qed.

Lemma length_slice_to (n : nat) (s : string) :
  String.length (slice_to n s) = Nat.min n (String.length s).
Proof.
  revert s. induction n as [|n IH]; intros [|c s]; simpl; try reflexivity.
  now rewrite IH.
Qed.

Lemma length_replace (a b : ascii) (s : string) :
  String.length (replace a b s) = String.length s.
Proof. induction s as [|c s IH]; simpl; [reflexivity | now rewrite IH]. Qed.

(** [split] never returns the empty list, so [l[0]] never raises on it. *)
Lemma split_not_nil (sep : ascii) (s : string) : split sep s <> [].
Proof.
  induction s as [|c s IH]; simpl; [discriminate|].
  destruct (Ascii.eqb c sep); [discriminate|].
  destruct (split sep s); discriminate.
Qed.

(** ** The loop *)

(** Every fragment either left in a [chunk] event or is still in the
    buffer; the events yielded are [chunk] events only, and the loop gives
    back all the fragments, unless the stream raises. *)
Lemma stream_chunks_spec (s : llm_stream) :
  forall buffer buffer_size full_response chunk_counter w,
  exists cs leftover,
    stream_chunks s buffer buffer_size full_response chunk_counter w =
      (match outcome s with
       | None => inl (full_response +++ join (fragments s))
       | Some e => inr e
       end,
       mkWorld (yielded w ++ map chunk_event cs) (store_calls w) (log w))
    /\ join cs +++ leftover = buffer +++ join (fragments s).
Proof.
  induction s as [| e | chunk rest IH]; intros buffer n full cnt w.
  - exists [], buffer. simpl. unfold ret.
    rewrite !append_nil_r, app_nil_r. destruct w; auto.
  - exists [], buffer. simpl. unfold raise.
    rewrite !append_nil_r, app_nil_r. destruct w; auto.
  - cbn [stream_chunks outcome fragments].
    destruct (flush_now (n + 1) chunk).
    + destruct (IH EmptyString 0 (full +++ chunk) (cnt + 1)
                  (mkWorld (yielded w ++ [chunk_event (buffer +++ chunk)])
                           (store_calls w) (log w)))
        as (cs & leftover & Hrun & Hcat).
      exists ((buffer +++ chunk) :: cs), leftover. split.
      * unfold bind, yield_event. rewrite Hrun. cbn [yielded store_calls log].
        rewrite <- app_assoc. cbn [map app join fold_right].
        now rewrite !append_assoc.
      * cbn [join fold_right] in *. fold (join cs). fold (join (fragments rest)).
        fold (join cs) in Hcat. fold (join (fragments rest)) in Hcat.
        simpl in Hcat. now rewrite !append_assoc, Hcat.
    + destruct (IH (buffer +++ chunk) (n + 1) (full +++ chunk) cnt w)
        as (cs & leftover & Hrun & Hcat).
      exists cs, leftover. split.
      * rewrite Hrun. cbn [join fold_right]. now rewrite !append_assoc.
      * rewrite Hcat. cbn [join fold_right]. now rewrite !append_assoc.
Qed.

(** ** The generator, run symbolically *)

Lemma world_eta (w : World) :
  mkWorld (yielded w) (store_calls w) (log w) = w.
Proof. now destruct w. Qed.

(** The update block never raises and yields nothing. *)
Lemma update_original_run env id full_response title w :
  update_original env id full_response title w =
    (inl tt,
     mkWorld (yielded w)
             (store_calls w ++ update_calls id full_response title)
             (log w ++ update_log env id full_response title)).
Proof.
  unfold update_original, update_calls, update_log, response_field, title_field.
  destruct (str_truthy id); [|unfold logger; now rewrite app_nil_r].
  cbn [filter snd not_none_nor_empty].
  assert (Hcall : forall kw,
    try_except
      (call_update_message env id kw ;;;
       logger INFO ("Updated message " +++ id +++ " with full response and title."))
      (fun e => logger EXCEPTION ("Error updating message " +++ id +++ ": " +++ e)) w =
    (inl tt,
     mkWorld (yielded w) (store_calls w ++ [mk_update_call id kw])
       (log w ++
        match update_message env id kw with
        | inl _ => [(INFO, "Updated message " +++ id +++ " with full response and title.")]
        | inr e => [(EXCEPTION, "Error updating message " +++ id +++ ": " +++ e)]
        end))).
  { intros kw. unfold try_except, bind, call_update_message, logger.
    destruct (update_message env id kw) as [[]|e]; reflexivity. }
  destruct full_response as [|c r]; cbn [str_truthy not_none_nor_empty app];
    destruct (not_none_nor_empty title); cbn [app dict_truthy];
    try apply Hcall.
  unfold ret. now rewrite !app_nil_r, world_eta.
Qed.

Section Runs.

Variable title_body : string -> exc pyval.
Variable env : Collaborators.
Variables prompt account conversation id : string.
Variable profile : pyval.

Let s := run_llm_stream env prompt profile.
Let full := join (fragments s).
Let title := title_of title_body full.

(** A stream that raises: the chunks flushed so far, then [error]. *)
Lemma generator_raises e w :
  outcome s = Some e ->
  exists cs leftover,
    generator title_body env prompt account conversation id profile w =
      (inl tt,
       mkWorld (yielded w ++ start_event :: map chunk_event cs ++ [error_event e])
               (store_calls w)
               (log w ++ [(EXCEPTION, "Error in stream_llm_response: " +++ e)]))
    /\ join cs +++ leftover = full.
Proof.
  intros He.
  destruct (stream_chunks_spec s EmptyString 0 EmptyString 0
              (mkWorld (yielded w ++ [start_event]) (store_calls w) (log w)))
    as (cs & leftover & Hrun & Hcat).
  exists cs, leftover. split; [|exact Hcat].
  unfold generator, try_except, bind at 1, yield_event at 1.
  fold s. unfold bind at 1. rewrite Hrun, He.
  unfold bind, logger, yield_event. cbn [yielded store_calls log].
  now rewrite <- !app_assoc.
Qed.

(** A stream that ends: the chunks flushed, the summary when the title is
    true, [complete] with the full response, then the update. *)
Lemma generator_completes w :
  outcome s = None ->
  exists cs leftover,
    generator title_body env prompt account conversation id profile w =
      (inl tt,
       mkWorld (yielded w ++ start_event :: map chunk_event cs ++
                  summary_events title ++ [complete_event full])
               (store_calls w ++ update_calls id full title)
               (log w ++ summary_log title_body full ++
                  update_log env id full title))
    /\ join cs +++ leftover = full.
Proof.
  intros He.
  destruct (stream_chunks_spec s EmptyString 0 EmptyString 0
              (mkWorld (yielded w ++ [start_event]) (store_calls w) (log w)))
    as (cs & leftover & Hrun & Hcat).
  exists cs, leftover. split; [|exact Hcat].
  unfold generator, try_except, bind at 1, yield_event at 1.
  fold s. unfold bind at 1. rewrite Hrun, He.
  cbn [append yielded store_calls log]. fold full.
  unfold bind at 1, create_summary, try_except, lift.
  unfold title, title_of, summary_log, summary_events.
  destruct (title_body full) as [t|e];
    unfold ret, raise, bind, logger, yield_event;
    cbn [yielded store_calls log];
    destruct (truthy _); cbn [truthy yielded store_calls log];
    rewrite update_original_run; cbn [yielded store_calls log];
    repeat rewrite <- app_assoc; reflexivity.
Qed.

End Runs.

(** ** The order of the events of a run *)

Lemma phase_after_chunks (cs : list string) (rest : list pyval) :
  phase_after STREAMING (map chunk_event cs ++ rest) = phase_after STREAMING rest.
Proof. induction cs as [|c cs IH]; [reflexivity | exact IH]. Qed.

Lemma generator_well_ordered title_body env prompt account conversation id profile :
  well_ordered
    (yielded (run (generator title_body env prompt account conversation id profile)))
  = true.
Proof.
  unfold run, well_ordered.
  destruct (outcome (run_llm_stream env prompt profile)) as [e|] eqn:He.
  - destruct (generator_raises title_body env prompt account conversation id
                profile e empty_world He) as (cs & leftover & Hrun & _).
    rewrite Hrun. cbn [snd yielded empty_world app phase_after next_phase].
    change (is_type "start" start_event) with true. cbv iota.
    now rewrite phase_after_chunks.
  - destruct (generator_completes title_body env prompt account conversation id
                profile empty_world He) as (cs & leftover & Hrun & _).
    rewrite Hrun. cbn [snd yielded empty_world app phase_after next_phase].
    change (is_type "start" start_event) with true. cbv iota.
    rewrite phase_after_chunks. unfold summary_events.
    now destruct (truthy _).
Qed.

(** ** The endpoint *)

(** A streaming answer carries the generator, and the framework runs it
    from a world in which nothing was yielded, stored or logged. *)
Lemma serve_streaming env request :
  valid_request env request ->
  exists prompt profile,
    serve env request =
      (inl (StreamingResponse
              (stream_llm_response env prompt (account_id request)
                 (conversation_id request) (original_message_id request) profile)
              "text/event-stream"),
       run (stream_llm_response env prompt (account_id request)
              (conversation_id request) (original_message_id request) profile)).
Proof.
  unfold valid_request, serve, http_stream_chat, try_except, bind, lift, ret,
    raise, logger, json_error, run.
  destruct (get_account env (account_id request)) as [account|e];
    [|discriminate].
  destruct (negb (truthy account)); [discriminate|].
  destruct (get_chat env (conversation_id request)) as [chat|e];
    [|discriminate].
  destruct (negb (truthy chat)); [discriminate|].
  destruct (get_recent_messages env (conversation_id request)) as [recent|e];
    [|discriminate].
  destruct (py_get account "system_prompt" PNone) as [system_prompt|e];
    [|discriminate].
  destruct (build_prompt env (message request) recent [] system_prompt)
    as [prompt|e]; [|discriminate].
  destruct (py_get chat "model_profile" (PStr "default")) as [profile|e];
    [|discriminate].
  intros _. now exists prompt, profile.
Qed.

(** C2. For every request that passes the validation, the events emitted
    are, in this order: exactly one [start], zero or more [chunk] events,
    at most one [summary], and exactly one terminal event, [complete] or
    [error], after which nothing is emitted. *)
Theorem event_order_of_valid_request env request :
  valid_request env request ->
  well_ordered (events_of env request) = true.
Proof.
  intros Hvalid. unfold events_of.
  destruct (serve_streaming env request Hvalid) as (prompt & profile & Hserve).
  rewrite Hserve. cbn [snd]. apply generator_well_ordered.
Qed.

Lemma event_order_of_valid_request_witness :
  valid_request
    (Demo.env (Demo.stream_of ["Hello "; "world. "; "Bye"] (Some "reset")) (inl tt))
    Demo.request /\
  well_ordered
    (events_of
       (Demo.env (Demo.stream_of ["Hello "; "world. "; "Bye"] (Some "reset")) (inl tt))
       Demo.request) = true.
Proof.
  split.
  - reflexivity.
  - apply (event_order_of_valid_request
             (Demo.env (Demo.stream_of ["Hello "; "world. "; "Bye"] (Some "reset"))
                       (inl tt))
             Demo.request).
    reflexivity.
Defined.

(** C3. When the account lookup returns [None], the endpoint answers at
    once with status 400 and the body [{"error": "Invalid account ID"}];
    the answer is not a stream and no event is ever emitted. *)
Theorem unknown_account_is_rejected env request :
  get_account env (account_id request) = inl PNone ->
  fst (serve env request) =
    inl (Response ("{" +++ quoted "error" +++ ": " +++
                   quoted "Invalid account ID" +++ "}")
                  400 "application/json")
  /\ is_streaming (fst (serve env request)) = false
  /\ events_of env request = [].
Proof.
  intros Hacc.
  assert (Hserve : serve env request =
            (inl (json_error "Invalid account ID" 400), empty_world)).
  { unfold serve, http_stream_chat, try_except, bind, lift.
    rewrite Hacc. reflexivity. }
  unfold events_of. rewrite Hserve. repeat split.
Qed.

Lemma unknown_account_is_rejected_witness :
  let env := Demo.env Exhausted (inl tt) in
  let request := mkStreamRequest "hi" "nobody" "chat" "m1" in
  get_account env (account_id request) = inl PNone /\
  fst (serve env request) =
    inl (Response ("{" +++ quoted "error" +++ ": " +++
                   quoted "Invalid account ID" +++ "}")
                  400 "application/json")
  /\ is_streaming (fst (serve env request)) = false
  /\ events_of env request = [].
Proof.
  intros env request. split; [reflexivity|].
  apply (unknown_account_is_rejected env request). reflexivity.
Defined.

(** C4. When the account lookup returns an account (an object that is
    true, as the test [if not account] requires) and the chat lookup
    returns [None], the endpoint answers at once with status 400 and the
    body [{"error": "Invalid chat ID"}]; the answer is not a stream and no
    event is ever emitted. *)
Theorem unknown_chat_is_rejected env request account :
  get_account env (account_id request) = inl account ->
  truthy account = true ->
  get_chat env (conversation_id request) = inl PNone ->
  fst (serve env request) =
    inl (Response ("{" +++ quoted "error" +++ ": " +++
                   quoted "Invalid chat ID" +++ "}")
                  400 "application/json")
  /\ is_streaming (fst (serve env request)) = false
  /\ events_of env request = [].
Proof.
  intros Hacc Htrue Hchat.
  assert (Hserve : serve env request =
            (inl (json_error "Invalid chat ID" 400), empty_world)).
  { unfold serve, http_stream_chat, try_except, bind, lift.
    rewrite Hacc. unfold ret at 1. rewrite Htrue. cbn [negb].
    rewrite Hchat. reflexivity. }
  unfold events_of. rewrite Hserve. repeat split.
Qed.

Lemma unknown_chat_is_rejected_witness :
  let env := Demo.env Exhausted (inl tt) in
  let request := mkStreamRequest "hi" "acct" "nowhere" "m1" in
  get_account env (account_id request) = inl (PDict [("_id", PStr "acct")]) /\
  truthy (PDict [("_id", PStr "acct")]) = true /\
  get_chat env (conversation_id request) = inl PNone /\
  fst (serve env request) =
    inl (Response ("{" +++ quoted "error" +++ ": " +++
                   quoted "Invalid chat ID" +++ "}")
                  400 "application/json")
  /\ is_streaming (fst (serve env request)) = false
  /\ events_of env request = [].
Proof.
  intros env request. repeat (split; [reflexivity|]).
  apply (unknown_chat_is_rejected env request (PDict [("_id", PStr "acct")]));
    reflexivity.
Defined.

(** ** The text of the events *)

Lemma chunk_texts_app (l1 l2 : list pyval) :
  chunk_texts (l1 ++ l2) = chunk_texts l1 ++ chunk_texts l2.
Proof. unfold chunk_texts. now rewrite filter_app, map_app. Qed.

Lemma chunk_texts_chunks (cs : list string) :
  chunk_texts (map chunk_event cs) = cs.
Proof.
  unfold chunk_texts. induction cs as [|c cs IH]; [reflexivity|].
  cbn [map]. change (is_type "chunk" (chunk_event c)) with true.
  cbn [filter map]. change (is_type "chunk" (chunk_event c)) with true.
  cbn iota. cbn [map]. now rewrite IH.
Qed.

Lemma chunk_texts_other (event : pyval) (l : list pyval) :
  is_type "chunk" event = false -> chunk_texts (event :: l) = chunk_texts l.
Proof. intros H. unfold chunk_texts. cbn [filter]. now rewrite H. Qed.


(** C1, at the stream that yields ["Hello world. "] and then ["More"].
    The first fragment has a full stop and is flushed; the second stays in
    the buffer, which nothing flushes when the stream ends.  The [chunk]
    events then carry ["Hello world. "] while [complete] carries
    ["Hello world. More"], the concatenation of the fragments. *)
Theorem last_buffer_is_not_flushed :
  let env := Demo.env (Demo.stream_of ["Hello world. "; "More"] None) (inl tt) in
  let events := events_of env Demo.request in
  valid_request env Demo.request /\
  events = [start_event; chunk_event "Hello world. ";
            summary_event (PStr "Hello world. More");
            complete_event "Hello world. More"] /\
  join (fragments (run_llm_stream env "hi" (PStr "default"))) = "Hello world. More" /\
  join (chunk_texts events) = "Hello world. " /\
  join (chunk_texts events) <> "Hello world. More".
Proof.
  cbv zeta. repeat split. vm_compute. discriminate.
Qed.

(** ** Exceptions *)

Lemma filter_chunks_other (cs : list string) (t : string) :
  t <> "chunk" -> filter (is_type t) (map chunk_event cs) = [].
Proof.
  intros Ht. induction cs as [|c cs IH]; [reflexivity|].
  cbn [map filter].
  change (is_type t (chunk_event c)) with (String.eqb "chunk" t).
  destruct (String.eqb_spec "chunk" t) as [Heq|_]; [now elim Ht; symmetry|exact IH].
Qed.

(** C5, as stated, fails: an exception raised by the message store is
    raised after [start], and the run ends with [complete], not [error]. *)
Lemma store_exception_is_no_error_event : ~ every_exception_ends_in_error.
Proof.
  intros H.
  specialize (H (Demo.env (Demo.stream_of ["Hi"] None) (inr "db down"))
                "hi" "acct" "chat" "m1" (PStr "default")).
  cbv zeta in H.
  destruct H as (before & e & Hev).
  - exists "Error updating message m1: db down". vm_compute. now left.
  - vm_compute in Hev.
    destruct before as [|a [|b [|c l]]]; cbn in Hev; discriminate.
Qed.

(** C5, amended. When the exception is raised by the LLM stream (the only
    exception that reaches the handler of the generator: those of the
    summary and of the update are caught where they occur), the run emits
    [start], the chunks flushed so far and one [error] event whose data is
    [{message: <the text of the exception>}], and then ends: the [error]
    event is the last one, there is no [complete] event, and the store is
    not called. *)
Theorem stream_exception_ends_in_error title_body env prompt account
    conversation id profile e :
  let g := generator title_body env prompt account conversation id profile in
  outcome (run_llm_stream env prompt profile) = Some e ->
  fst (g empty_world) = inl tt /\
  (exists cs,
     yielded (run g) = start_event :: map chunk_event cs ++ [error_event e]) /\
  event_data (error_event e) "message" = PStr e /\
  filter (is_type "error") (yielded (run g)) = [error_event e] /\
  filter (is_type "complete") (yielded (run g)) = [] /\
  store_calls (run g) = [].
Proof.
  intros g He. subst g. unfold run.
  destruct (generator_raises title_body env prompt account conversation id
              profile e empty_world He) as (cs & leftover & Hrun & _).
  rewrite Hrun. cbn [fst snd yielded store_calls empty_world app].
  pose proof (filter_chunks_other cs) as Hno.
  repeat split.
  - now exists cs.
  - cbn [filter]. change (is_type "error" start_event) with false. cbv iota.
    rewrite filter_app, Hno by discriminate. reflexivity.
  - cbn [filter]. change (is_type "complete" start_event) with false. cbv iota.
    rewrite filter_app, Hno by discriminate. reflexivity.
Qed.

Lemma stream_exception_ends_in_error_witness :
  let env := Demo.env (Demo.stream_of ["Wait. "; "for"] (Some "timed out")) (inl tt) in
  let g := stream_llm_response env "hi" "acct" "chat" "m1" (PStr "default") in
  outcome (run_llm_stream env "hi" (PStr "default")) = Some "timed out" /\
  fst (g empty_world) = inl tt /\
  (exists cs,
     yielded (run g) = start_event :: map chunk_event cs ++ [error_event "timed out"]) /\
  event_data (error_event "timed out") "message" = PStr "timed out" /\
  filter (is_type "error") (yielded (run g)) = [error_event "timed out"] /\
  filter (is_type "complete") (yielded (run g)) = [] /\
  store_calls (run g) = [].
Proof.
  intros env g. split; [reflexivity|].
  apply (stream_exception_ends_in_error derive_title env "hi" "acct" "chat" "m1"
           (PStr "default") "timed out").
  reflexivity.
Defined.

(** ** The title *)

Lemma item0_split (s : string) : item0 (split newline s) = inl (first_line s).
Proof.
  induction s as [|c s IH]; [reflexivity|].
  cbn [split first_line]. destruct (Ascii.eqb c newline); [reflexivity|].
  destruct (split newline s) as [|h t]; cbn [item0] in *.
  - discriminate.
  - now injection IH as ->.
Qed.

Lemma derive_title_spec (full_response : string) :
  derive_title full_response = inl (title_value (spec_title full_response)).
Proof.
  unfold derive_title, spec_title.
  rewrite item0_split, Nat.ltb_antisym.
  destruct (Nat.leb (String.length full_response) 10); cbn [negb];
    [reflexivity|].
  now destruct (Nat.ltb _ 10).
Qed.

(** A title that is derived has at least 10 characters. *)
Lemma spec_title_length (full_response t : string) :
  spec_title full_response = Some t -> 10 <= String.length t.
Proof.
  unfold spec_title.
  destruct (Nat.leb_spec (String.length full_response) 10) as [|Hlen];
    [discriminate|].
  pose proof (length_slice_to 50 full_response) as Hfull.
  pose proof (length_replace newline space (slice_to 50 full_response)) as Hrep.
  remember (slice_to 50 full_response) as prefix eqn:Hprefix.
  remember (slice_to 50 (first_line full_response)) as candidate eqn:Hcandidate.
  destruct (Nat.ltb_spec (String.length candidate) 10) as [|Hcand];
    intros Heq; injection Heq as <-; lia.
Qed.

Lemma no_summary_among (cs : list string) (tail : list pyval) :
  filter (is_type "summary") (start_event :: map chunk_event cs ++ tail) =
  filter (is_type "summary") tail.
Proof.
  cbn [filter]. change (is_type "summary" start_event) with false. cbv iota.
  rewrite filter_app, filter_chunks_other by discriminate. reflexivity.
Qed.

(** *** The embedding against the Standard Library *)

Lemma truncate_slice_to (n : nat) (s : string) : truncate n s = slice_to n s.
Proof.
  unfold truncate. revert s.
  induction n as [|n IH]; intros [|c s]; cbn; try reflexivity.
  now rewrite IH.
Qed.

Lemma newlines_to_spaces_replace (s : string) :
  newlines_to_spaces s = replace newline space s.
Proof.
  unfold newlines_to_spaces.
  induction s as [|c s IH]; [reflexivity|]. cbn. now rewrite IH.
Qed.

Lemma first_line_has_no_newline (s : string) :
  ~ In newline (list_ascii_of_string (first_line s)).
Proof.
  induction s as [|c s IH]; cbn [first_line]; [cbn; tauto|].
  destruct (Ascii.eqb_spec c newline) as [->|Hne]; [cbn; tauto|].
  cbn. intros [Hc|Hin]; [now elim Hne | now apply IH].
Qed.

Lemma first_line_is_first_line (s : string) : is_first_line (first_line s) s.
Proof.
  split; [apply first_line_has_no_newline|].
  induction s as [|c s IH]; [now left|]. cbn [first_line].
  destruct (Ascii.eqb_spec c newline) as [->|_].
  - right. now exists s.
  - destruct IH as [IH|(rest & IH)].
    + left. now rewrite <- IH.
    + right. exists rest. cbn. now rewrite <- IH.
Qed.

(** A text has one first line. *)
Lemma is_first_line_unique (full line line' : string) :
  is_first_line line full -> is_first_line line' full -> line = line'.
Proof.
  revert line line'.
  induction full as [|c full IH]; intros line line' [Hn Hd] [Hn' Hd'].
  - destruct Hd as [<-|(rest & H)]; [|destruct line; discriminate].
    destruct Hd' as [<-|(rest & H)]; [reflexivity|destruct line'; discriminate].
  - assert (Hcase : forall l, ~ In newline (list_ascii_of_string l) ->
              (String c full = l \/
               exists rest, String c full = l +++ String newline rest) ->
              (c = newline /\ l = EmptyString) \/
              (c <> newline /\ exists l0, l = String c l0 /\
                 is_first_line l0 full)).
    { intros l Hl Hdl. destruct l as [|x l].
      - left. destruct Hdl as [H|(rest & H)]; [discriminate|].
        cbn in H. now injection H as -> _.
      - right. cbn in Hl.
        assert (Hx : x = c).
        { destruct Hdl as [H|(rest & H)]; cbn in H; now injection H. }
        subst x. split; [intros ->; apply Hl; now left|].
        exists l. split; [reflexivity|]. split; [tauto|].
        destruct Hdl as [H|(rest & H)]; cbn in H; injection H as H;
          [now left | right; now exists rest]. }
    destruct (Hcase line Hn Hd) as [[Hc ->]|[Hc (l0 & -> & H0)]];
      destruct (Hcase line' Hn' Hd') as [[Hc' ->]|[Hc' (l0' & -> & H0')]];
      try reflexivity; try contradiction.
    f_equal. now apply IH.
Qed.

Lemma expected_title_spec (full_response : string) :
  expected_title full_response (spec_title full_response).
Proof.
  unfold expected_title, spec_title.
  destruct (Nat.leb_spec (String.length full_response) 10) as [Hle|Hgt];
    [now left|].
  right. split; [exact Hgt|]. exists (first_line full_response).
  split; [apply first_line_is_first_line|].
  rewrite !truncate_slice_to, newlines_to_spaces_replace.
  remember (slice_to 50 (first_line full_response)) as candidate eqn:Hc.
  remember (slice_to 50 full_response) as prefix eqn:Hp.
  destruct (Nat.ltb_spec (String.length candidate) 10); [right|left]; auto.
Qed.

(** The title a run shows: that of its [summary] events, read back. *)
Lemma summary_titles_of_run title_body env prompt account conversation id
    profile :
  let s := run_llm_stream env prompt profile in
  let full := join (fragments s) in
  outcome s = None ->
  summary_titles
    (yielded (run (generator title_body env prompt account conversation id
                     profile))) =
  summary_titles (summary_events (title_of title_body full)).
Proof.
  intros s full He. unfold run, summary_titles.
  destruct (generator_completes title_body env prompt account conversation id
              profile empty_world He) as (cs & leftover & -> & _).
  cbn [snd yielded empty_world app]. fold s full.
  rewrite no_summary_among, filter_app. cbn [filter].
  change (is_type "summary" (complete_event full)) with false. cbv iota.
  now rewrite app_nil_r.
Qed.

(** C6. The title is derived only for a full response of more than 10
    characters; it is then the first line cut to 50 characters, unless
    that is shorter than 10 characters, in which case it is the first 50
    characters of the full response with every newline made a space.  For
    a full response of at most 10 characters no title is derived and no
    [summary] event is emitted.

    The title is stated on the strings of the Standard Library
    ([expected_title]), and it is the title of the run: when the stream
    completes, the [summary] events read from the run carry that title
    and no other, and there is none when no title is derived. *)
Theorem title_derivation_follows_spec :
  (forall full_response,
     derive_title full_response = inl (title_value (spec_title full_response)) /\
     expected_title full_response (spec_title full_response) /\
     (forall title, expected_title full_response title ->
                    title = spec_title full_response)) /\
  (forall env prompt account conversation id profile,
     let full := join (fragments (run_llm_stream env prompt profile)) in
     let w := run (stream_llm_response env prompt account conversation id profile) in
     outcome (run_llm_stream env prompt profile) = None ->
     exists title,
       expected_title full title /\
       summary_titles (yielded w) =
         match title with Some t => [PStr t] | None => [] end /\
       (10 < String.length full -> title <> None)) /\
  (forall env prompt account conversation id profile,
     let full := join (fragments (run_llm_stream env prompt profile)) in
     let w := run (stream_llm_response env prompt account conversation id profile) in
     String.length full <= 10 ->
     derive_title full = inl PNone /\
     filter (is_type "summary") (yielded w) = []).
Proof.
  split; [|split].
  - intros full. split; [apply derive_title_spec|].
    split; [apply expected_title_spec|].
    intros title Hexp. pose proof (expected_title_spec full) as Hspec.
    destruct Hexp as [[Hle ->]|(Hgt & line & Hline & Hcase)];
      destruct Hspec as [[Hle' ->]|(Hgt' & line' & Hline' & Hcase')];
      try reflexivity; try lia.
    rewrite (is_first_line_unique full line line' Hline Hline') in Hcase.
    destruct Hcase as [[Hlen ->]|[Hlen ->]];
      destruct Hcase' as [[Hlen' ->]|[Hlen' ->]]; try reflexivity; lia.
  - intros env prompt account conversation id profile full w He.
    exists (spec_title full). split; [apply expected_title_spec|].
    subst w. unfold stream_llm_response.
    rewrite summary_titles_of_run by exact He. fold full.
    unfold title_of. rewrite derive_title_spec.
    destruct (spec_title full) as [t|] eqn:Ht; cbn [title_value].
    + pose proof (spec_title_length full t Ht) as Hlong.
      split; [|discriminate].
      destruct t as [|c t]; [cbn in Hlong; lia|]. reflexivity.
    + split; [reflexivity|]. intros Hgt. exfalso.
      unfold spec_title in Ht.
      destruct (Nat.leb_spec (String.length full) 10); [lia|].
      destruct (Nat.ltb _ 10); discriminate.
  - intros env prompt account conversation id profile full w Hlen.
    assert (Hnone : derive_title full = inl PNone).
    { rewrite derive_title_spec. unfold spec_title.
      now destruct (Nat.leb_spec (String.length full) 10); [|lia]. }
    split; [exact Hnone|].
    subst w. unfold run, stream_llm_response.
    destruct (outcome (run_llm_stream env prompt profile)) as [e|] eqn:He.
    + destruct (generator_raises derive_title env prompt account conversation id
                  profile e empty_world He) as (cs & leftover & Hrun & _).
      rewrite Hrun. cbn [snd yielded empty_world app].
      now rewrite no_summary_among.
    + destruct (generator_completes derive_title env prompt account conversation
                  id profile empty_world He) as (cs & leftover & Hrun & _).
      rewrite Hrun. cbn [snd yielded empty_world app].
      rewrite no_summary_among. fold full. unfold title_of. now rewrite Hnone.
Qed.

(** Three runs: a first line long enough, a first line too short, and a
    response too short for a title. *)
Lemma title_derivation_follows_spec_witness :
  let run_of l :=
    run (stream_llm_response (Demo.env (Demo.stream_of l None) (inl tt))
           "hi" "acct" "chat" "m1" (PStr "default")) in
  (exists title,
     expected_title ("Hello world" +++ nl +++ "This continues") title /\
     summary_titles (yielded (run_of ["Hello world"; nl; "This continues"])) =
       match title with Some t => [PStr t] | None => [] end /\
     (10 < String.length ("Hello world" +++ nl +++ "This continues") ->
      title <> None)) /\
  summary_titles (yielded (run_of ["Hello world"; nl; "This continues"])) =
    [PStr "Hello world"] /\
  summary_titles (yielded (run_of ["Hi"; nl; "there, more text follows"])) =
    [PStr "Hi there, more text follows"] /\
  (String.length (join ["Hi. "; "Bye."]) <= 10 /\
   derive_title (join ["Hi. "; "Bye."]) = inl PNone /\
   filter (is_type "summary") (yielded (run_of ["Hi. "; "Bye."])) = []).
Proof.
  intros run_of. split; [|split; [reflexivity|split; [reflexivity|]]].
  - apply (proj1 (proj2 title_derivation_follows_spec)
             (Demo.env (Demo.stream_of ["Hello world"; nl; "This continues"] None)
                       (inl tt))
             "hi" "acct" "chat" "m1" (PStr "default")).
    reflexivity.
  - split; [vm_compute; repeat constructor|].
    apply (proj2 (proj2 title_derivation_follows_spec)
             (Demo.env (Demo.stream_of ["Hi. "; "Bye."] None) (inl tt))
             "hi" "acct" "chat" "m1" (PStr "default")).
    vm_compute. repeat constructor.
Defined.

(** The two titles the specification works out. *)
Example title_of_long_first_line :
  derive_title ("Hello world" +++ nl +++ "This continues") = inl (PStr "Hello world").
Proof. reflexivity. Qed.

Example title_of_short_first_line :
  derive_title ("Hi" +++ nl +++ "there, more text follows") =
  inl (PStr "Hi there, more text follows").
Proof. reflexivity. Qed.

(** ** The update of the original message *)

(** C7, as stated, fails: a stream that yields nothing completes with an
    empty full response, which the filter removes from the update together
    with the absent title, and the store is not called. *)
Lemma empty_response_is_not_stored : ~ every_completed_run_updates.
Proof.
  intros H.
  specialize (H (Demo.env Exhausted (inl tt)) "hi" "acct" "chat" "m1"
                (PStr "default")).
  cbv zeta in H.
  destruct H as (kw & Hcalls & _); [discriminate | reflexivity |].
  vm_compute in Hcalls. discriminate.
Qed.

(** C7, amended. When [original_message_id] is not empty, the stream
    completes and the full response is not empty, the store receives
    exactly one update call, for that message id, with [response] the full
    response and [title] the derived title, the [title] item being left out
    when the title is [None] or [""].  When the full response is empty and
    there is no title to store, the store receives no call. *)
Theorem completed_run_updates_once title_body env prompt account conversation
    id profile :
  let s := run_llm_stream env prompt profile in
  let full := join (fragments s) in
  let title := title_of title_body full in
  let w := run (generator title_body env prompt account conversation id profile) in
  id <> EmptyString ->
  outcome s = None ->
  (full <> EmptyString ->
   store_calls w =
     [mk_update_call id (("response", PStr full) :: title_field title)]) /\
  (full = EmptyString -> title_field title = [] -> store_calls w = []) /\
  title_field PNone = [] /\
  title_field (PStr EmptyString) = [].
Proof.
  intros s full title w Hid He. subst w. unfold run.
  destruct (generator_completes title_body env prompt account conversation id
              profile empty_world He) as (cs & leftover & Hrun & _).
  rewrite Hrun. cbn [snd store_calls empty_world app]. fold s full title.
  unfold update_calls, response_field.
  destruct id as [|c r]; [now elim Hid|]. cbn [str_truthy].
  repeat split.
  - intros Hfull. destruct full; [now elim Hfull|]. reflexivity.
  - intros -> ->. reflexivity.
Qed.

Lemma completed_run_updates_once_witness :
  let env := Demo.env (Demo.stream_of ["Hello world"; nl; "This continues"] None)
                      (inl tt) in
  let s := run_llm_stream env "hi" (PStr "default") in
  let w := run (stream_llm_response env "hi" "acct" "chat" "m1" (PStr "default")) in
  "m1" <> EmptyString /\
  outcome s = None /\
  join (fragments s) <> EmptyString /\
  store_calls w =
    [mk_update_call "m1"
       [("response", PStr ("Hello world" +++ nl +++ "This continues"));
        ("title", PStr "Hello world")]].
Proof.
  intros env s w.
  assert (Hid : "m1" <> EmptyString) by discriminate.
  assert (Hfull : join (fragments s) <> EmptyString) by discriminate.
  split; [exact Hid|]. split; [reflexivity|]. split; [exact Hfull|].
  exact (proj1 (completed_run_updates_once derive_title env "hi" "acct" "chat"
                  "m1" (PStr "default") Hid eq_refl) Hfull).
Defined.

(** ** Failures that are swallowed *)

(** The store has no say in the events: the generator yields the same
    events, whatever [update_message] does. *)
Lemma events_ignore_store title_body env store prompt account conversation id
    profile :
  yielded (run (generator title_body
                  (mkCollaborators (get_account env) (get_chat env)
                     (get_recent_messages env) (build_prompt env)
                     (run_llm_stream env) store)
                  prompt account conversation id profile)) =
  yielded (run (generator title_body env prompt account conversation id profile)).
Proof.
  unfold run, generator, try_except, bind. cbn [run_llm_stream].
  destruct (yield_event start_event empty_world) as [[[]|e0] w0];
    [|reflexivity].
  destruct (stream_chunks (run_llm_stream env prompt profile) EmptyString 0
              EmptyString 0 w0) as [[full|e] w1]; [|reflexivity].
  destruct (create_summary title_body full w1) as [[title|e] w2];
    [|reflexivity].
  destruct ((if truthy title then yield_event (summary_event title) else ret tt) w2)
    as [[[]|e] w3]; [|reflexivity].
  destruct (yield_event (complete_event full) w3) as [[[]|e] w4];
    [|reflexivity].
  now rewrite !update_original_run.
Qed.

(** C8. In a run whose stream completes, a failure of the title derivation
    or of the update is logged and goes no further: the generator ends
    normally, the events are [start], the chunks, the summary of the title
    and [complete] with the full response, none of them an [error] event,
    and they are the same whatever the store answers.  When the title
    derivation fails, the title is [None]: no [summary] event and no
    [title] item. *)
Theorem title_and_update_failures_are_swallowed title_body env prompt account
    conversation id profile :
  let s := run_llm_stream env prompt profile in
  let full := join (fragments s) in
  let title := title_of title_body full in
  let g := generator title_body env prompt account conversation id profile in
  outcome s = None ->
  fst (g empty_world) = inl tt /\
  (exists cs,
     yielded (run g) =
       start_event :: map chunk_event cs ++ summary_events title ++
       [complete_event full]) /\
  filter (is_type "error") (yielded (run g)) = [] /\
  (forall e, title_body full = inr e ->
     title = PNone /\ summary_events title = [] /\ title_field title = [] /\
     In (EXCEPTION, "Error creating summary: " +++ e) (log (run g))) /\
  (forall kw e,
     In (mk_update_call id kw) (store_calls (run g)) ->
     update_message env id kw = inr e ->
     In (EXCEPTION, "Error updating message " +++ id +++ ": " +++ e)
        (log (run g))) /\
  (forall store,
     let env' := mkCollaborators (get_account env) (get_chat env)
                   (get_recent_messages env) (build_prompt env)
                   (run_llm_stream env) store in
     yielded (run (generator title_body env' prompt account conversation id
                     profile)) = yielded (run g)).
Proof.
  intros s full title g He. subst g.
  destruct (generator_completes title_body env prompt account conversation id
              profile empty_world He) as (cs & leftover & Hrun & Hcat).
  split; [|split; [|split; [|split; [|split]]]];
    [| | | | | intros store env'; apply events_ignore_store];
    unfold run; rewrite Hrun;
    cbn [fst snd yielded store_calls log empty_world app];
    fold s full title.
  - reflexivity.
  - now exists cs.
  - cbn [filter]. change (is_type "error" start_event) with false. cbv iota.
    rewrite filter_app, filter_chunks_other by discriminate.
    unfold summary_events. now destruct (truthy title).
  - intros e Hfail. unfold title, title_of, summary_log. rewrite Hfail.
    repeat split. now left.
  - intros kw e Hin Hraise. apply in_or_app. right.
    unfold update_calls in Hin. unfold update_log.
    destruct (str_truthy id); [|contradiction].
    destruct (response_field full ++ title_field title) as [|item kw'];
      [contradiction|].
    destruct Hin as [[= <-]|[]]. rewrite Hraise. now left.
Qed.

Lemma title_and_update_failures_are_swallowed_witness :
  let env := Demo.env (Demo.stream_of ["A long enough answer. "; "More"] None)
                      (inr "db down") in
  let g := generator Demo.failing_title env "hi" "acct" "chat" "m1"
             (PStr "default") in
  outcome (run_llm_stream env "hi" (PStr "default")) = None /\
  fst (g empty_world) = inl tt /\
  filter (is_type "error") (yielded (run g)) = [] /\
  In (EXCEPTION, "Error creating summary: no title") (log (run g)) /\
  In (EXCEPTION, "Error updating message m1: db down") (log (run g)).
Proof.
  intros env g.
  destruct (title_and_update_failures_are_swallowed Demo.failing_title env "hi"
              "acct" "chat" "m1" (PStr "default") eq_refl)
    as (Hend & _ & Hnoerr & Htitle & Hupdate & _).
  split; [reflexivity|]. split; [exact Hend|]. split; [exact Hnoerr|]. split.
  - exact (proj2 (proj2 (proj2 (Htitle "no title" eq_refl)))).
  - apply (Hupdate [("response", PStr "A long enough answer. More")] "db down").
    + now left.
    + reflexivity.
Defined.

(** ** The empty stream *)



(** ** The summary of a long response *)

(** The title derivation of the program never raises. *)
Lemma derive_title_total (full_response : string) :
  exists title, derive_title full_response = inl title.
Proof. rewrite derive_title_spec. eauto. Qed.

(** C10. When the stream completes with a full response of more than 10
    characters, the title derivation (which does not raise) gives a title
    that is not empty, and a [summary] event with that title is emitted,
    between the chunks and [complete].  The event is read back from the
    run: it is the one event of type ["summary"], its data holds the
    title under ["title"], and on the wire it is a frame of its own.  The
    title may be made of spaces only: the response of eleven newlines has
    the title of eleven spaces. *)
Theorem long_response_has_summary :
  (forall env prompt account conversation id profile,
     let s := run_llm_stream env prompt profile in
     let full := join (fragments s) in
     let w := run (stream_llm_response env prompt account conversation id profile) in
     outcome s = None ->
     10 < String.length full ->
     exists t,
       derive_title full = inl (PStr t) /\
       t <> EmptyString /\
       expected_title full (Some t) /\
       (exists cs,
          yielded w = start_event :: map chunk_event cs ++
                      [summary_event (PStr t); complete_event full]) /\
       exists event,
         filter (is_type "summary") (yielded w) = [event] /\
         event_type event = PStr "summary" /\
         event_data event "title" = PStr t /\
         summary_titles (yielded w) = [PStr t] /\
         In (sse_frame event) (wire w) /\
         exists before,
           yielded w = before ++ [event; complete_event full] /\
           filter (is_type "complete") before = [] /\
           filter (is_type "error") before = []) /\
  derive_title (nl +++ nl +++ nl +++ nl +++ nl +++ nl +++ nl +++ nl +++ nl +++
                nl +++ nl) = inl (PStr "           ").
Proof.
  split; [|reflexivity].
  intros env prompt account conversation id profile s full w He Hlen.
  destruct (spec_title full) as [t|] eqn:Ht.
  - exists t. pose proof (spec_title_length full t Ht) as Hlong.
    assert (Hd : derive_title full = inl (PStr t))
      by (now rewrite derive_title_spec, Ht).
    assert (Hne : t <> EmptyString) by (intros ->; cbn in Hlong; lia).
    split; [exact Hd|]. split; [exact Hne|].
    split; [rewrite <- Ht; apply expected_title_spec|].
    subst w. unfold run, stream_llm_response, wire.
    destruct (generator_completes derive_title env prompt account conversation
                id profile empty_world He) as (cs & leftover & Hrun & _).
    rewrite Hrun. cbn [snd yielded empty_world app].
    fold s full. unfold title_of, summary_events. rewrite Hd.
    destruct t as [|c t]; [now elim Hne|]. cbn [truthy app].
    split; [now exists cs|].
    exists (summary_event (PStr (String c t))).
    assert (Hfilter :
      filter (is_type "summary")
        (start_event :: map chunk_event cs ++
           [summary_event (PStr (String c t)); complete_event full]) =
      [summary_event (PStr (String c t))]).
    { rewrite no_summary_among. cbn [filter].
      change (is_type "summary" (summary_event (PStr (String c t)))) with true.
      change (is_type "summary" (complete_event full)) with false.
      reflexivity. }
    split; [exact Hfilter|]. split; [reflexivity|]. split; [reflexivity|].
    split; [unfold summary_titles; rewrite Hfilter; reflexivity|].
    split.
    + apply in_map. right. apply in_or_app. right. now left.
    + exists (start_event :: map chunk_event cs). split.
      * reflexivity.
      * cbn [filter]. change (is_type "complete" start_event) with false.
        change (is_type "error" start_event) with false. cbv iota.
        now rewrite !filter_chunks_other by discriminate.
  - unfold spec_title in Ht.
    destruct (Nat.leb_spec (String.length full) 10); [lia|].
    destruct (Nat.ltb _ 10); discriminate.
Qed.

Lemma long_response_has_summary_witness :
  let env := Demo.env (Demo.stream_of ["Hi"; nl; "there, more text follows"] None)
                      (inl tt) in
  let s := run_llm_stream env "hi" (PStr "default") in
  let full := join (fragments s) in
  let w := run (stream_llm_response env "hi" "acct" "chat" "m1" (PStr "default")) in
  outcome s = None /\
  10 < String.length full /\
  summary_titles (yielded w) = [PStr "Hi there, more text follows"] /\
  exists t,
    derive_title full = inl (PStr t) /\
    t <> EmptyString /\
    expected_title full (Some t) /\
    (exists cs,
       yielded w = start_event :: map chunk_event cs ++
                   [summary_event (PStr t); complete_event full]) /\
    exists event,
      filter (is_type "summary") (yielded w) = [event] /\
      event_type event = PStr "summary" /\
      event_data event "title" = PStr t /\
      summary_titles (yielded w) = [PStr t] /\
      In (sse_frame event) (wire w) /\
      exists before,
        yielded w = before ++ [event; complete_event full] /\
        filter (is_type "complete") before = [] /\
        filter (is_type "error") before = [].
Proof.
  intros env s full w. split; [reflexivity|].
  split; [vm_compute; repeat constructor|]. split; [reflexivity|].
  apply (proj1 long_response_has_summary env "hi" "acct" "chat" "m1"
           (PStr "default")).
  - reflexivity.
  - vm_compute. repeat constructor.
Defined.

(** ** The bytes on the wire *)

Example frame_of_start :
  sse_frame start_event =
  "data: {" +++ quoted "type" +++ ": " +++ quoted "start" +++ ", " +++
  quoted "data" +++ ": {}}" +++ nl +++ nl.
Proof. reflexivity. Qed.

Example frame_of_chunk_escapes_newline :
  sse_frame (chunk_event ("More" +++ nl)) =
  "data: {" +++ quoted "type" +++ ": " +++ quoted "chunk" +++ ", " +++
  quoted "data" +++ ": {" +++ quoted "text" +++ ": " +++
  quoted ("More" +++ String backslash "n") +++ "}}" +++ nl +++ nl.
Proof. reflexivity. Qed.

(** * Further properties of the code *)

(** ** The flush policy of the loop *)

Lemma flush_now_punctuated (buffer_size : nat) (chunk : string) :
  flush_now buffer_size chunk =
  Nat.leb max_buffer_size buffer_size || punctuated chunk.
Proof. unfold flush_now, punctuated. now rewrite !orb_assoc. Qed.

Lemma join_snoc (l : list string) (chunk : string) :
  join (l ++ [chunk]) = join l +++ chunk.
Proof. rewrite join_app. cbn. now rewrite append_nil_r. Qed.

(** The loop, started with a buffer that holds the fragments [pending]:
    the [chunk] events carry, group by group, the pending fragments and
    those of the stream, and what is left fits the buffer again. *)
Lemma stream_chunks_groups (s : llm_stream) :
  forall pending full_response chunk_counter w,
  pending_ok pending ->
  exists groups rest,
    snd (stream_chunks s (join pending) (length pending) full_response
           chunk_counter w) =
      mkWorld (yielded w ++ map chunk_event (map join groups))
              (store_calls w) (log w)
    /\ pending ++ fragments s = concat groups ++ rest
    /\ Forall flush_group groups
    /\ pending_ok rest.
Proof.
  induction s as [| e | chunk tail IH]; intros pending full cnt w Hok.
  - exists [], pending. cbn. rewrite !app_nil_r, world_eta. auto.
  - exists [], pending. cbn. rewrite !app_nil_r, world_eta. auto.
  - cbn [stream_chunks fragments]. rewrite <- join_snoc.
    replace (length pending + 1) with (length (pending ++ [chunk]))
      by (rewrite length_app; reflexivity).
    rewrite flush_now_punctuated.
    destruct Hok as [Hlen Hplain].
    assert (Hsize : length (pending ++ [chunk]) <= max_buffer_size)
      by (rewrite length_app; cbn [length]; lia).
    destruct (Nat.leb max_buffer_size (length (pending ++ [chunk])) ||
              punctuated chunk) eqn:Hflush.
    + destruct (IH [] (full +++ chunk) (cnt + 1)
                  (mkWorld (yielded w ++ [chunk_event (join (pending ++ [chunk]))])
                           (store_calls w) (log w)))
        as (groups & rest & Hrun & Hsplit & Hgroups & Hrest).
      { split; [unfold max_buffer_size; cbn; lia | constructor]. }
      exists ((pending ++ [chunk]) :: groups), rest.
      unfold bind, yield_event. cbn [join fold_right length] in Hrun.
      split; [|split; [|split]].
      * change EmptyString with (join []) at 1. cbn [join fold_right].
        rewrite Hrun. cbn [yielded store_calls log map].
        now rewrite <- app_assoc.
      * cbn [concat app] in *. rewrite <- !app_assoc. cbn [app].
        now rewrite <- Hsplit.
      * constructor; [|exact Hgroups].
        exists pending, chunk. repeat split; try assumption.
        apply orb_true_iff in Hflush as [Hfull|Hp]; [left|now right].
        apply Nat.leb_le in Hfull. lia.
      * exact Hrest.
    + apply orb_false_iff in Hflush as [Hfull Hp].
      apply Nat.leb_gt in Hfull.
      destruct (IH (pending ++ [chunk]) (full +++ chunk) cnt w)
        as (groups & rest & Hrun & Hsplit & Hgroups & Hrest).
      { split; [exact Hfull|]. apply Forall_app. split; [exact Hplain|].
        now constructor. }
      exists groups, rest. rewrite <- app_assoc in Hsplit. auto.
Qed.

(** The generator in terms of what the loop returns and leaves. *)
Lemma generator_unfold title_body env prompt account conversation id profile w :
  generator title_body env prompt account conversation id profile w =
  match stream_chunks (run_llm_stream env prompt profile) EmptyString 0
          EmptyString 0
          (mkWorld (yielded w ++ [start_event]) (store_calls w) (log w)) with
  | (inl full, w1) =>
      (inl tt,
       mkWorld (yielded w1 ++ summary_events (title_of title_body full) ++
                  [complete_event full])
               (store_calls w1 ++ update_calls id full (title_of title_body full))
               (log w1 ++ summary_log title_body full ++
                  update_log env id full (title_of title_body full)))
  | (inr e, w1) =>
      (inl tt,
       mkWorld (yielded w1 ++ [error_event e]) (store_calls w1)
               (log w1 ++ [(EXCEPTION, "Error in stream_llm_response: " +++ e)]))
  end.
Proof.
  unfold generator, try_except, bind at 1, yield_event at 1.
  unfold bind at 1.
  destruct (stream_chunks _ _ _ _ _ _) as [[full|e] w1].
  - unfold bind at 1, create_summary, try_except, lift.
    unfold title_of, summary_log, summary_events.
    destruct (title_body full) as [t|e];
      unfold ret, raise, bind, logger, yield_event;
      cbn [yielded store_calls log];
      destruct (truthy _); cbn [truthy yielded store_calls log];
      rewrite update_original_run; cbn [yielded store_calls log];
      repeat rewrite <- app_assoc; reflexivity.
  - reflexivity.
Qed.

(** The outer handler catches everything: iterating the generator never
    raises into the framework. *)
Theorem generator_never_raises title_body env prompt account conversation id
    profile w :
  fst (generator title_body env prompt account conversation id profile w) =
  inl tt.
Proof.
  rewrite generator_unfold.
  now destruct (stream_chunks _ _ _ _ _ _) as [[full|e] w1].
Qed.

Lemma chunk_texts_summary_events (title : pyval) :
  chunk_texts (summary_events title) = [].
Proof. unfold summary_events. now destruct (truthy title). Qed.

(** The [chunk] events of a run are those of the loop. *)
Lemma chunk_texts_of_run title_body env prompt account conversation id profile :
  chunk_texts
    (yielded (run (generator title_body env prompt account conversation id
                     profile))) =
  chunk_texts
    (yielded (snd (stream_chunks (run_llm_stream env prompt profile)
                     EmptyString 0 EmptyString 0
                     (mkWorld [start_event] [] [])))).
Proof.
  unfold run. rewrite generator_unfold. cbn [empty_world yielded store_calls log app].
  destruct (stream_chunks _ _ _ _ _ _) as [[full|e] w1];
    cbn [snd yielded]; rewrite !chunk_texts_app.
  - rewrite chunk_texts_summary_events. cbn [app].
    rewrite (chunk_texts_other (complete_event full)) by reflexivity.
    cbn. now rewrite app_nil_r.
  - rewrite (chunk_texts_other (error_event e)) by reflexivity.
    cbn. now rewrite app_nil_r.
Qed.

(** The chunk texts of a run, split into the groups the loop flushed. *)
Lemma flush_groups_of_run title_body env prompt account conversation id
    profile :
  exists groups rest,
    chunk_texts
      (yielded (run (generator title_body env prompt account conversation id
                       profile))) = map join groups /\
    fragments (run_llm_stream env prompt profile) = concat groups ++ rest /\
    Forall flush_group groups /\
    pending_ok rest.
Proof.
  rewrite chunk_texts_of_run.
  destruct (stream_chunks_groups (run_llm_stream env prompt profile) []
              EmptyString 0 (mkWorld [start_event] [] []))
    as (groups & rest & Hrun & Hsplit & Hgroups & Hrest).
  { split; [unfold max_buffer_size; cbn; lia | constructor]. }
  exists groups, rest. cbn [join fold_right length app] in Hrun, Hsplit.
  rewrite Hrun. cbn [yielded app].
  rewrite chunk_texts_other, chunk_texts_chunks by reflexivity. auto.
Qed.

(** Every [chunk] event carries a group of consecutive fragments: at most
    [max_buffer_size] of them, the last one punctuated or the fifth, the
    others unpunctuated.  The groups come in the order of the stream, and
    what follows them is what the buffer still held: fewer than
    [max_buffer_size] fragments, none punctuated.  This holds whether the
    stream ends or raises. *)
Theorem chunk_events_are_flush_groups title_body env prompt account
    conversation id profile :
  exists groups rest,
    chunk_texts
      (yielded (run (generator title_body env prompt account conversation id
                       profile))) = map join groups /\
    fragments (run_llm_stream env prompt profile) = concat groups ++ rest /\
    Forall flush_group groups /\
    pending_ok rest.
Proof. apply flush_groups_of_run. Qed.

Lemma flush_group_length (g : list string) :
  flush_group g -> 1 <= length g <= max_buffer_size.
Proof.
  intros (init & last & -> & _ & Hle & _). split; [|exact Hle].
  rewrite length_app. cbn. lia.
Qed.

Lemma concat_groups_length (groups : list (list string)) :
  Forall flush_group groups ->
  length groups <= length (concat groups) <= max_buffer_size * length groups.
Proof.
  induction 1 as [|g groups Hg _ IH]; [cbn; lia|].
  apply flush_group_length in Hg. cbn [concat length].
  rewrite length_app. unfold max_buffer_size in *. lia.
Qed.

(** There are at most as many [chunk] events as fragments, and at least
    one for every five fragments: with [n] fragments and [k] chunk events,
    [k <= n <= 5 * k + 4]. *)
Theorem chunk_event_count title_body env prompt account conversation id profile :
  let n := length (fragments (run_llm_stream env prompt profile)) in
  let k := length (chunk_texts
                     (yielded (run (generator title_body env prompt account
                                      conversation id profile)))) in
  k <= n <= max_buffer_size * k + 4.
Proof.
  intros n k. subst n k.
  destruct (flush_groups_of_run title_body env prompt account conversation id
              profile)
    as (groups & rest & -> & -> & Hgroups & [Hrest _]).
  apply concat_groups_length in Hgroups.
  rewrite length_map, length_app. unfold max_buffer_size in *. lia.
Qed.



(** A stream of fewer than five fragments, none of them punctuated, gives
    no [chunk] event at all, whether it ends or raises: when it ends, its
    text reaches the client only in [complete]. *)
Theorem short_plain_stream_has_no_chunk title_body env prompt account
    conversation id profile :
  let s := run_llm_stream env prompt profile in
  length (fragments s) < max_buffer_size ->
  Forall (fun chunk => punctuated chunk = false) (fragments s) ->
  chunk_texts
    (yielded (run (generator title_body env prompt account conversation id
                     profile))) = [].
Proof.
  intros s Hlen Hplain.
  destruct (flush_groups_of_run title_body env prompt account conversation id
              profile)
    as (groups & rest & -> & Hsplit & Hgroups & _).
  fold s in Hsplit. destruct groups as [|g groups]; [reflexivity|].
  exfalso. apply Forall_inv in Hgroups as (init & last & -> & _ & _ & Hwhy).
  rewrite Hsplit in Hlen, Hplain. cbn [concat] in Hlen, Hplain.
  destruct Hwhy as [Hfive|Hpunct].
  - rewrite !length_app in Hlen. rewrite length_app in Hfive. lia.
  - apply Forall_app in Hplain as [Hplain _].
    apply Forall_app in Hplain as [Hplain _].
    apply Forall_app in Hplain as [_ Hlast].
    inversion Hlast as [|? ? Hq _]. congruence.
Qed.

(** When every fragment is punctuated, every fragment is sent at once, as
    a [chunk] event of its own. *)
Theorem punctuated_fragments_are_sent_one_by_one title_body env prompt account
    conversation id profile :
  let s := run_llm_stream env prompt profile in
  Forall (fun chunk => punctuated chunk = true) (fragments s) ->
  chunk_texts
    (yielded (run (generator title_body env prompt account conversation id
                     profile))) = fragments s.
Proof.
  intros s Hall.
  destruct (flush_groups_of_run title_body env prompt account conversation id
              profile)
    as (groups & rest & -> & Hsplit & Hgroups & [_ Hrest]).
  fold s in Hsplit. rewrite Hsplit in Hall |- *.
  apply Forall_app in Hall as [Hall Hall_rest].
  assert (Hnil : rest = []).
  { destruct rest as [|x rest]; [reflexivity|].
    inversion Hall_rest; inversion Hrest; congruence. }
  subst rest. rewrite app_nil_r. clear Hsplit Hrest Hall_rest.
  induction Hgroups as [|g groups (init & last & -> & Hinit & _) _ IH];
    [reflexivity|].
  cbn [concat] in Hall. apply Forall_app in Hall as [Hg Hall].
  cbn [map concat]. rewrite (IH Hall).
  destruct init as [|x init].
  - cbn. now rewrite append_nil_r.
  - inversion Hinit; inversion Hg; congruence.
Qed.

(** ** The shape of a derived title *)

Lemma first_line_no_newline (s : string) :
  contains newline (first_line s) = false.
Proof.
  induction s as [|c s IH]; [reflexivity|]. cbn [first_line].
  destruct (Ascii.eqb c newline) eqn:Hc; [reflexivity|].
  cbn [contains]. now rewrite Hc.
Qed.

Lemma slice_to_no_newline (n : nat) (s : string) :
  contains newline s = false -> contains newline (slice_to n s) = false.
Proof.
  revert s. induction n as [|n IH]; intros [|c s]; cbn; try reflexivity.
  destruct (Ascii.eqb c newline); [discriminate|]. apply IH.
Qed.

Lemma replace_no_newline (s : string) :
  contains newline (replace newline space s) = false.
Proof.
  induction s as [|c s IH]; [reflexivity|]. cbn [replace contains].
  destruct (Ascii.eqb c newline) eqn:Hc; [exact IH|]. now rewrite Hc.
Qed.

Lemma replace_without_newline (s : string) :
  contains newline s = false -> replace newline space s = s.
Proof.
  induction s as [|c s IH]; [reflexivity|]. cbn [replace contains].
  destruct (Ascii.eqb c newline); [discriminate|].
  intros H. now rewrite IH.
Qed.

Lemma slice_to_own_length (n : nat) (s : string) :
  slice_to (String.length (slice_to n s)) s = slice_to n s.
Proof.
  revert s. induction n as [|n IH]; intros [|c s]; cbn; try reflexivity.
  now rewrite IH.
Qed.

Lemma slice_to_first_line (n : nat) (s : string) :
  slice_to (String.length (slice_to n (first_line s))) s =
  slice_to n (first_line s).
Proof.
  revert s. induction n as [|n IH]; intros [|c s]; cbn; try reflexivity.
  destruct (Ascii.eqb c newline); [reflexivity|]. cbn. now rewrite IH.
Qed.

(** A title that is derived has between 10 and 50 characters, is a single
    line, and is the beginning of the full response, of the same length,
    with its newlines made spaces. *)
Theorem derived_title_shape (full_response t : string) :
  derive_title full_response = inl (PStr t) ->
  10 <= String.length t <= 50 /\
  contains newline t = false /\
  replace newline space (slice_to (String.length t) full_response) = t.
Proof.
  rewrite derive_title_spec. intros Hd.
  assert (Ht : spec_title full_response = Some t)
    by (destruct (spec_title full_response); [now injection Hd as -> | discriminate]).
  clear Hd. pose proof (spec_title_length _ _ Ht) as Hmin.
  unfold spec_title in Ht.
  destruct (Nat.leb (String.length full_response) 10); [discriminate|].
  pose proof (length_slice_to 50 full_response) as Hfull.
  pose proof (length_slice_to 50 (first_line full_response)) as Hline.
  pose proof (slice_to_own_length 50 full_response) as Hown.
  pose proof (slice_to_first_line 50 full_response) as Hpre.
  pose proof (slice_to_no_newline 50 _ (first_line_no_newline full_response))
    as Hplain.
  pose proof (replace_no_newline (slice_to 50 full_response)) as Hrep.
  pose proof (length_replace newline space (slice_to 50 full_response)) as Hlen.
  remember (slice_to 50 full_response) as prefix eqn:Hprefix.
  remember (slice_to 50 (first_line full_response)) as candidate eqn:Hcandidate.
  destruct (Nat.ltb (String.length candidate) 10); injection Ht as <-.
  - split; [lia|]. split; [exact Hrep|]. now rewrite Hlen, Hown.
  - split; [lia|]. split; [exact Hplain|].
    rewrite Hpre. now apply replace_without_newline.
Qed.

Lemma derived_title_shape_witness :
  derive_title ("Hi" +++ nl +++ "there, more text follows") =
    inl (PStr "Hi there, more text follows") /\
  10 <= String.length "Hi there, more text follows" <= 50 /\
  contains newline "Hi there, more text follows" = false /\
  replace newline space
    (slice_to (String.length "Hi there, more text follows")
       ("Hi" +++ nl +++ "there, more text follows")) =
  "Hi there, more text follows".
Proof.
  split; [reflexivity|].
  apply (derived_title_shape ("Hi" +++ nl +++ "there, more text follows")
           "Hi there, more text follows").
  reflexivity.
Defined.

(** ** The calls to the message store *)

Lemma update_calls_shape (id full_response : string) (title : pyval) call :
  In call (update_calls id full_response title) ->
  update_calls id full_response title = [call] /\
  message_id call = id /\
  id <> EmptyString /\
  fields call = response_field full_response ++ title_field title /\
  fields call <> [].
Proof.
  unfold update_calls. destruct id as [|c r]; [contradiction|].
  cbn [str_truthy].
  destruct (response_field full_response ++ title_field title) as [|kv kw] eqn:Hkw;
    [contradiction|].
  intros [<-|[]]. cbn. repeat split; discriminate.
Qed.

Lemma cleaned_fields_not_empty (full_response : string) (title : pyval) :
  Forall (fun kv => not_none_nor_empty (snd kv) = true)
         (response_field full_response ++ title_field title).
Proof.
  apply Forall_app. unfold response_field, title_field. split.
  - destruct full_response; cbn; repeat constructor.
  - destruct (not_none_nor_empty title) eqn:Ht; cbn; repeat constructor.
    exact Ht.
Qed.

Lemma store_calls_of_run title_body env prompt account conversation id profile :
  let s := run_llm_stream env prompt profile in
  store_calls (run (generator title_body env prompt account conversation id
                      profile)) =
  match outcome s with
  | None => update_calls id (join (fragments s))
              (title_of title_body (join (fragments s)))
  | Some _ => []
  end.
Proof.
  intros s. unfold run.
  destruct (outcome s) as [e|] eqn:He.
  - destruct (generator_raises title_body env prompt account conversation id
                profile e empty_world He) as (cs & leftover & -> & _).
    reflexivity.
  - destruct (generator_completes title_body env prompt account conversation id
                profile empty_world He) as (cs & leftover & -> & _).
    reflexivity.
Qed.

(** In any run, whatever the stream, the title derivation and the store
    do, the message store is called at most once; a call is made only when
    the stream completed and [original_message_id] is not empty, it names
    that message, and none of the fields it carries is [None] or [""]. *)
Theorem store_is_called_at_most_once title_body env prompt account conversation
    id profile :
  let s := run_llm_stream env prompt profile in
  let w := run (generator title_body env prompt account conversation id profile) in
  length (store_calls w) <= 1 /\
  forall call, In call (store_calls w) ->
    outcome s = None /\
    id <> EmptyString /\
    message_id call = id /\
    fields call <> [] /\
    Forall (fun kv => not_none_nor_empty (snd kv) = true) (fields call).
Proof.
  intros s w. subst w. rewrite store_calls_of_run. fold s.
  destruct (outcome s) as [e|]; [split; [cbn; lia | contradiction]|].
  split.
  - unfold update_calls. destruct (str_truthy id); [|cbn; lia].
    destruct (_ ++ _); cbn; lia.
  - intros call Hin.
    apply update_calls_shape in Hin as (_ & Hid & Hne & Hf & Hnil).
    rewrite Hf. repeat split; auto. now rewrite <- Hf.
    apply cleaned_fields_not_empty.
Qed.

(** Without a message id, a run that completes stores nothing and logs the
    warning instead. *)
Theorem no_message_id_no_update title_body env prompt account conversation
    profile :
  let s := run_llm_stream env prompt profile in
  let w := run (generator title_body env prompt account conversation
                  EmptyString profile) in
  outcome s = None ->
  store_calls w = [] /\
  In (WARNING,
      "original_message_id was not provided to stream_llm_response. Cannot update message.")
     (log w).
Proof.
  intros s w He. subst w. unfold run.
  destruct (generator_completes title_body env prompt account conversation
              EmptyString profile empty_world He) as (cs & leftover & -> & _).
  cbn [snd store_calls log empty_world app]. split; [reflexivity|].
  apply in_or_app. right. now left.
Qed.

Lemma store_is_called_at_most_once_witness :
  let env := Demo.env (Demo.stream_of ["Hello "; "world. "] None) (inl tt) in
  let w := run (stream_llm_response env "hi" "acct" "chat" "m1" (PStr "default")) in
  let call := mk_update_call "m1" [("response", PStr "Hello world. ");
                                   ("title", PStr "Hello world. ")] in
  In call (store_calls w) /\
  outcome (run_llm_stream env "hi" (PStr "default")) = None /\
  "m1" <> EmptyString /\
  message_id call = "m1" /\
  fields call <> [] /\
  Forall (fun kv => not_none_nor_empty (snd kv) = true) (fields call).
Proof.
  intros env w call.
  assert (Hin : In call (store_calls w)) by (now left).
  split; [exact Hin|].
  exact (proj2 (store_is_called_at_most_once derive_title env "hi" "acct" "chat"
                  "m1" (PStr "default")) call Hin).
Defined.

Lemma no_message_id_no_update_witness :
  let env := Demo.env (Demo.stream_of ["Hello "; "world. "] None) (inl tt) in
  let w := run (stream_llm_response env "hi" "acct" "chat" EmptyString
                  (PStr "default")) in
  outcome (run_llm_stream env "hi" (PStr "default")) = None /\
  store_calls w = [] /\
  In (WARNING,
      "original_message_id was not provided to stream_llm_response. Cannot update message.")
     (log w).
Proof.
  intros env w. split; [reflexivity|].
  apply (no_message_id_no_update derive_title env "hi" "acct" "chat"
           (PStr "default")).
  reflexivity.
Defined.





Lemma short_plain_stream_has_no_chunk_witness :
  let env := Demo.env (Demo.stream_of ["Hello"; " world"] None) (inl tt) in
  let s := run_llm_stream env "hi" (PStr "default") in
  length (fragments s) < max_buffer_size /\
  Forall (fun chunk => punctuated chunk = false) (fragments s) /\
  chunk_texts
    (yielded (run (stream_llm_response env "hi" "acct" "chat" "m1"
                     (PStr "default")))) = [].
Proof.
  intros env s.
  assert (Hlen : length (fragments s) < max_buffer_size)
    by (vm_compute; repeat constructor).
  assert (Hplain : Forall (fun chunk => punctuated chunk = false) (fragments s))
    by (repeat constructor).
  split; [exact Hlen|]. split; [exact Hplain|].
  exact (short_plain_stream_has_no_chunk derive_title env "hi" "acct" "chat"
           "m1" (PStr "default") Hlen Hplain).
Defined.

Lemma punctuated_fragments_are_sent_one_by_one_witness :
  let env := Demo.env (Demo.stream_of ["Yes."; "No!"; "Why?"] (Some "reset"))
                      (inl tt) in
  let s := run_llm_stream env "hi" (PStr "default") in
  Forall (fun chunk => punctuated chunk = true) (fragments s) /\
  chunk_texts
    (yielded (run (stream_llm_response env "hi" "acct" "chat" "m1"
                     (PStr "default")))) = fragments s.
Proof.
  intros env s.
  assert (Hall : Forall (fun chunk => punctuated chunk = true) (fragments s))
    by (repeat constructor).
  split; [exact Hall|].
  exact (punctuated_fragments_are_sent_one_by_one derive_title env "hi" "acct"
           "chat" "m1" (PStr "default") Hall).
Defined.

(** ** The answers of the endpoint *)

(** The endpoint never raises, and it gives one of four answers: the two
    400 answers of the validation, a 500 answer that carries the text of
    the exception caught, which is logged, or the stream of the
    generator, as [text/event-stream]. *)
Theorem endpoint_answers env request :
  exists response,
    fst (serve env request) = inl response /\
    (response = json_error "Invalid account ID" 400 \/
     response = json_error "Invalid chat ID" 400 \/
     (exists e,
        response = json_error e 500 /\
        log (snd (serve env request)) =
          [(EXCEPTION, "Error in http_stream_chat: " +++ e)]) \/
     (exists prompt profile,
        response =
          StreamingResponse
            (stream_llm_response env prompt (account_id request)
               (conversation_id request) (original_message_id request) profile)
            "text/event-stream")).
Proof.
  unfold serve, http_stream_chat, try_except, bind, lift, ret, raise, logger.
  destruct (get_account env (account_id request)) as [account|e];
    [|eexists; split; [reflexivity|]; right; right; left; now exists e].
  destruct (negb (truthy account));
    [eexists; split; [reflexivity|]; now left|].
  destruct (get_chat env (conversation_id request)) as [chat|e];
    [|eexists; split; [reflexivity|]; right; right; left; now exists e].
  destruct (negb (truthy chat));
    [eexists; split; [reflexivity|]; right; now left|].
  destruct (get_recent_messages env (conversation_id request)) as [recent|e];
    [|eexists; split; [reflexivity|]; right; right; left; now exists e].
  destruct (py_get account "system_prompt" PNone) as [system_prompt|e];
    [|eexists; split; [reflexivity|]; right; right; left; now exists e].
  destruct (build_prompt env (message request) recent [] system_prompt)
    as [prompt|e];
    [|eexists; split; [reflexivity|]; right; right; left; now exists e].
  destruct (py_get chat "model_profile" (PStr "default")) as [profile|e];
    [|eexists; split; [reflexivity|]; right; right; left; now exists e].
  eexists. split; [reflexivity|]. right; right; right. now exists prompt, profile.
Qed.

Ltac refused_answer :=
  intros _; split;
  [ do 2 eexists; split; [reflexivity | (now left) || (now right)]
  | split; reflexivity ].

(** A request that is refused has no effect: the answer is a JSON body
    with status 400 or 500, no event is emitted and the message store is
    not called. *)
Theorem refused_request_has_no_effect env request :
  is_streaming (fst (serve env request)) = false ->
  (exists content status,
     fst (serve env request) = inl (Response content status "application/json") /\
     (status = 400 \/ status = 500)) /\
  yielded (snd (serve env request)) = [] /\
  store_calls (snd (serve env request)) = [].
Proof.
  unfold serve, http_stream_chat, try_except, bind, lift, ret, raise, logger,
    json_error.
  destruct (get_account env (account_id request)) as [account|e];
    [|refused_answer].
  destruct (negb (truthy account));
    [refused_answer|].
  destruct (get_chat env (conversation_id request)) as [chat|e];
    [|refused_answer].
  destruct (negb (truthy chat));
    [refused_answer|].
  destruct (get_recent_messages env (conversation_id request)) as [recent|e];
    [|refused_answer].
  destruct (py_get account "system_prompt" PNone) as [system_prompt|e];
    [|refused_answer].
  destruct (build_prompt env (message request) recent [] system_prompt)
    as [prompt|e];
    [|refused_answer].
  destruct (py_get chat "model_profile" (PStr "default")) as [profile|e];
    [|refused_answer].
  discriminate.
Qed.

Lemma refused_request_has_no_effect_witness :
  let env := Demo.env (Demo.stream_of ["Hello."] None) (inl tt) in
  let request := mkStreamRequest "hi" "acct" "nowhere" "m1" in
  is_streaming (fst (serve env request)) = false /\
  (exists content status,
     fst (serve env request) = inl (Response content status "application/json") /\
     (status = 400 \/ status = 500)) /\
  yielded (snd (serve env request)) = [] /\
  store_calls (snd (serve env request)) = [].
Proof.
  intros env request. split; [reflexivity|].
  apply (refused_request_has_no_effect env request). reflexivity.
Defined.

Lemma json_dumps_error (e : string) :
  json_dumps (PDict [("error", PStr e)]) =
  "{" +++ quoted "error" +++ ": " +++ encode_basestring_ascii e +++ "}".
Proof.
  cbn [json_dumps]. rewrite append_nil_r.
  change (encode_basestring_ascii "error") with (quoted "error").
  cbn [quoted String.append]. unfold encode_basestring_ascii.
  cbn [String.append]. now rewrite !append_assoc.
Qed.

(** An exception raised by a collaborator before the stream is opened (the
    account lookup, the chat lookup, the recent messages or the prompt
    builder, those before it having succeeded) gives status 500 with the
    body [{"error": <the text of the exception>}]; it is logged and no
    event is emitted. *)
Theorem setup_exception_is_500 env request e :
  (get_account env (account_id request) = inr e \/
   exists account,
     get_account env (account_id request) = inl (PDict account) /\
     account <> [] /\
     (get_chat env (conversation_id request) = inr e \/
      exists chat,
        get_chat env (conversation_id request) = inl (PDict chat) /\
        chat <> [] /\
        (get_recent_messages env (conversation_id request) = inr e \/
         exists recent,
           get_recent_messages env (conversation_id request) = inl recent /\
           build_prompt env (message request) recent []
             (get account "system_prompt" PNone) = inr e))) ->
  serve env request =
    (inl (Response ("{" +++ quoted "error" +++ ": " +++
                    encode_basestring_ascii e +++ "}")
                   500 "application/json"),
     mkWorld [] [] [(EXCEPTION, "Error in http_stream_chat: " +++ e)]).
Proof.
  unfold serve, http_stream_chat, try_except, bind, lift, ret, raise, logger,
    json_error.
  rewrite <- json_dumps_error.
  intros [Ha | (account & Ha & Hacc & Hrest)]; rewrite Ha; [reflexivity|].
  destruct account as [|item account]; [now elim Hacc|]. cbn [truthy negb].
  destruct Hrest as [Hc | (chat & Hc & Hchat & Hrest)]; rewrite Hc;
    [reflexivity|].
  destruct chat as [|item' chat]; [now elim Hchat|]. cbn [truthy negb].
  destruct Hrest as [Hr | (recent & Hr & Hb)]; rewrite Hr; [reflexivity|].
  cbn [py_get]. now rewrite Hb.
Qed.

Lemma setup_exception_is_500_witness :
  let env := mkCollaborators
               (fun _ => inl (PDict [("_id", PStr "acct")]))
               (fun _ => inr "connection refused")
               (fun _ => inl []) (fun m _ _ _ => inl m)
               (fun _ _ => Exhausted) (fun _ _ => inl tt) in
  serve env Demo.request =
    (inl (Response ("{" +++ quoted "error" +++ ": " +++
                    quoted "connection refused" +++ "}")
                   500 "application/json"),
     mkWorld [] [] [(EXCEPTION, "Error in http_stream_chat: connection refused")]).
Proof.
  intros env.
  apply (setup_exception_is_500 env Demo.request "connection refused").
  right. exists [("_id", PStr "acct")].
  split; [reflexivity|]. split; [discriminate|]. now left.
Defined.

(** A request whose account and chat are found, and whose prompt is built,
    is answered by the stream of the generator: the prompt is built from
    the message, the recent messages, no retrieved document and the
    account's [system_prompt] ([None] when missing), and the LLM runs with
    the chat's [model_profile], ["default"] when missing. *)
Theorem valid_request_streams env request account chat recent prompt :
  get_account env (account_id request) = inl (PDict account) ->
  account <> [] ->
  get_chat env (conversation_id request) = inl (PDict chat) ->
  chat <> [] ->
  get_recent_messages env (conversation_id request) = inl recent ->
  build_prompt env (message request) recent []
    (get account "system_prompt" PNone) = inl prompt ->
  let g := stream_llm_response env prompt (account_id request)
             (conversation_id request) (original_message_id request)
             (get chat "model_profile" (PStr "default")) in
  serve env request = (inl (StreamingResponse g "text/event-stream"), run g).
Proof.
  intros Ha Hacc Hc Hchat Hr Hb g. subst g.
  unfold serve, http_stream_chat, try_except, bind, lift, ret, raise.
  rewrite Ha. destruct account as [|item account]; [now elim Hacc|].
  cbn [truthy negb]. rewrite Hc.
  destruct chat as [|item' chat]; [now elim Hchat|]. cbn [truthy negb].
  rewrite Hr. cbn [py_get]. rewrite Hb. reflexivity.
Qed.

Lemma valid_request_streams_witness :
  let env := Demo.env (Demo.stream_of ["Hello."] None) (inl tt) in
  let g := stream_llm_response env "hi" "acct" "chat" "m1" (PStr "default") in
  serve env Demo.request = (inl (StreamingResponse g "text/event-stream"), run g).
Proof.
  intros env g.
  apply (valid_request_streams env Demo.request [("_id", PStr "acct")]
           [("_id", PStr "chat")] [] "hi");
    try reflexivity; discriminate.
Defined.

(** ** What the events depend on *)

(** The events of a run are a function of the fragments the LLM yields and
    of how its stream ends: the account, the conversation, the message id
    and the answers of the message store have no part in them. *)
Theorem events_depend_on_the_stream_only env env' prompt prompt' account
    account' conversation conversation' id id' profile profile' :
  run_llm_stream env prompt profile = run_llm_stream env' prompt' profile' ->
  yielded (run (stream_llm_response env prompt account conversation id profile)) =
  yielded (run (stream_llm_response env' prompt' account' conversation' id'
                  profile')).
Proof.
  intros Hs. unfold run, stream_llm_response.
  rewrite !generator_unfold, Hs.
  now destruct (stream_chunks _ _ _ _ _ _) as [[full|e] w1].
Qed.

Lemma events_depend_on_the_stream_only_witness :
  let s := Demo.stream_of ["Hello "; "world. "; "Bye"] None in
  let env := Demo.env s (inl tt) in
  let env' := Demo.env s (inr "db down") in
  run_llm_stream env "hi" (PStr "default") = run_llm_stream env' "yo" PNone /\
  yielded (run (stream_llm_response env "hi" "acct" "chat" "m1" (PStr "default"))) =
  yielded (run (stream_llm_response env' "yo" "other" "room" EmptyString PNone)).
Proof.
  intros s env env'. split; [reflexivity|].
  apply (events_depend_on_the_stream_only env env' "hi" "yo" "acct" "other"
           "chat" "room" "m1" EmptyString (PStr "default") PNone).
  reflexivity.
Defined.
